(** * CodeCombiner (Codehelp.py): a shallow embedding of the core logic

    The development models the non-graphical behaviour of
    [CodeCombinerApp] in [src/Codehelp.py]: the ordered, name-deduplicated
    file list with its checked set, the per-file copy / paste / revert
    actions with their bounded version history, and the combination of the
    checked files into one text.

    Python strings are sequences of Unicode code points, so a string is a
    list of code points ([N]); the tables of whitespace and line-break
    characters are the ones of CPython ([str.strip], [str.splitlines]).
    Paths follow [pathlib.PurePosixPath].  The disk, the clipboard and the
    messages shown to the user are explicit components of the state. *)

From Stdlib Require Import String Ascii NArith.
From stdpp Require Import base list gmap sets strings.

Local Open Scope N_scope.

(** ** Text: Python [str] *)

Module Text.

Definition char := N.
Definition str := list char.

(** A string literal of the source, as code points (ASCII literals only). *)
Definition u (s : string) : str :=
  (fun a : ascii => N_of_ascii a) <$> list_ascii_of_string s.

Definition LF : char := 10.
Definition CR : char := 13.
Definition FF : char := 12.

(** [str.isspace] on one code point ([_PyUnicode_IsWhitespace]). *)
Definition is_space (c : char) : bool :=
  (9 <=? c) && (c <=? 13) || (28 <=? c) && (c <=? 32)
  || (c =? 133) || (c =? 160) || (c =? 5760)
  || (8192 <=? c) && (c <=? 8202)
  || (c =? 8232) || (c =? 8233) || (c =? 8239) || (c =? 8287)
  || (c =? 12288).

(** Line boundaries of [str.splitlines] ([_PyUnicode_IsLinebreak]). *)
Definition is_linebreak (c : char) : bool :=
  (10 <=? c) && (c <=? 13) || (28 <=? c) && (c <=? 30)
  || (c =? 133) || (c =? 8232) || (c =? 8233).

Fixpoint lstrip (s : str) : str :=
  match s with
  | [] => []
  | c :: s' => if is_space c then lstrip s' else s
  end.

Definition rstrip (s : str) : str := reverse (lstrip (reverse s)).

(** [s.strip()] *)
Definition strip (s : str) : str := rstrip (lstrip s).

(** [s.splitlines()]: the lines of [s] without their terminators; a
    carriage return directly followed by a line feed is one terminator,
    and a terminator at the very end opens no further line. *)
Fixpoint splitlines (s : str) : list str :=
  match s with
  | [] => []
  | c :: s' =>
      if is_linebreak c then
        [] :: match s' with
              | c' :: s'' =>
                  if (c =? CR) && (c' =? LF) then splitlines s''
                  else splitlines s'
              | [] => []
              end
      else
        match splitlines s' with
        | [] => [[c]]
        | l :: ls => (c :: l) :: ls
        end
  end.

(** Newline translation of a text-mode read ([newline=None]): "\r\n" and
    a lone "\r" both become "\n". *)
Fixpoint universal_newlines (s : str) : str :=
  match s with
  | [] => []
  | c :: s' =>
      if c =? CR then
        LF :: match s' with
              | c' :: s'' =>
                  if c' =? LF then universal_newlines s''
                  else universal_newlines s'
              | [] => []
              end
      else c :: universal_newlines s'
  end.

(** [file.readlines()] on translated text: lines end after each "\n",
    which they keep. *)
Fixpoint readlines (s : str) : list str :=
  match s with
  | [] => []
  | c :: s' =>
      if c =? LF then [c] :: readlines s'
      else match readlines s' with
           | [] => [[c]]
           | l :: ls => (c :: l) :: ls
           end
  end.

(** [''.join(lines)] *)
Definition join_empty (lines : list str) : str := concat lines.

(** ["\n".join(lines)] *)
Fixpoint join_lf (lines : list str) : str :=
  match lines with
  | [] => []
  | [l] => l
  | l :: ls => l ++ LF :: join_lf ls
  end.

(** [s.lower()], on the ASCII letters.  The source lower-cases a file
    suffix only to compare it with ".py", and no code point outside
    A-Z lower-cases to an ASCII character. *)
Definition lower_char (c : char) : char :=
  if (65 <=? c) && (c <=? 90) then c + 32 else c.

Definition lower (s : str) : str := lower_char <$> s.

(** [s.rfind(c)] as an index, [None] for -1. *)
Fixpoint rfind (c : char) (s : str) : option nat :=
  match s with
  | [] => None
  | x :: s' =>
      match rfind c s' with
      | Some i => Some (S i)
      | None => if x =? c then Some 0%nat else None
      end
  end.

End Text.

Import Text.

(** ** Paths: [pathlib.PurePosixPath] *)

Module PurePath.

(** A parsed path: the anchor ("/" for an absolute path, empty for a
    relative one) and the remaining components. *)
Record Path := mkPath { anchor : str; parts : list str }.

#[global] Instance Path_eq_dec : EqDecision Path.
Proof. solve_decision. Defined.

#[global] Instance Path_countable : Countable Path.
Proof.
  refine (inj_countable' (fun p => (anchor p, parts p))
                         (fun t => mkPath t.1 t.2) _).
  by intros [].
Defined.

(** [p.name]: the final component, empty when there is none. *)
Definition name (p : Path) : str := default [] (last (parts p)).

(** [p.parent]: the path without its final component; a path without
    components is its own parent. *)
Definition parent (p : Path) : Path :=
  mkPath (anchor p) (removelast (parts p)).

(** [p / n] for a single component [n]. *)
Definition child (p : Path) (n : str) : Path :=
  mkPath (anchor p) (parts p ++ [n]).

(** [p.relative_to(q)]: [None] stands for the [ValueError] raised when
    [p] does not lie under [q]. *)
Definition relative_to (p q : Path) : option Path :=
  if decide (anchor p = anchor q
             /\ take (length (parts q)) (parts p) = parts q)
  then Some (mkPath [] (drop (length (parts q)) (parts p)))
  else None.

Fixpoint join_slash (l : list str) : str :=
  match l with
  | [] => []
  | [x] => x
  | x :: l' => x ++ 47 :: join_slash l'
  end.

(** [p.as_posix()] *)
Definition as_posix (p : Path) : str :=
  match anchor p, parts p with
  | [], [] => u "."
  | a, l => a ++ join_slash l
  end.

(** [p.suffix]: the final component from its last dot on, provided that
    dot is neither its first nor its last character. *)
Definition suffix (p : Path) : str :=
  let n := name p in
  match rfind 46 n with
  | Some i =>
      if decide (0 < i /\ i < length n - 1)%nat then drop i n else []
  | None => []
  end.

End PurePath.

Import PurePath.

(** ** The disk *)

Module Disk.

(** What a path holds: text (stored as written), bytes that are not
    valid UTF-8, or something that cannot be read at all (a directory,
    a file without read permission). *)
Inductive entry :=
| TextFile (raw : str)
| Binary
| Unreadable.

#[global] Instance entry_eq_dec : EqDecision entry.
Proof. solve_decision. Defined.

(** [locked] holds the paths at which a write raises (read-only file,
    missing directory, full disk).  A write that raises leaves the disk
    as it was; a write that succeeds stores the text as given, as on a
    POSIX system, where "\n" is written as it is. *)
Record disk := mkDisk { files : gmap Path entry; locked : gset Path }.

Inductive io_error := FileNotFoundError | UnicodeDecodeError | OSError.

Inductive result (A : Type) :=
| Ok (a : A)
| Raise (e : io_error).
Arguments Ok {A} a.
Arguments Raise {A} e.

(** [p.exists()] *)
Definition exists_ (d : disk) (p : Path) : bool :=
  bool_decide (is_Some (files d !! p)).

(** [p.read_text(encoding="utf-8")], and the text seen through
    [p.open("r", encoding="utf-8")]. *)
Definition read_text (d : disk) (p : Path) : result str :=
  match files d !! p with
  | None => Raise FileNotFoundError
  | Some (TextFile raw) => Ok (universal_newlines raw)
  | Some Binary => Raise UnicodeDecodeError
  | Some Unreadable => Raise OSError
  end.

(** [p.write_text(c, encoding="utf-8")]; [None] when it raises. *)
Definition write_text (d : disk) (p : Path) (c : str) : option disk :=
  if decide (p ∈ locked d) then None
  else Some (mkDisk (<[p := TextFile c]> (files d)) (locked d)).

End Disk.

Import Disk.

(** ** The application state and its operations: [CodeCombinerApp] *)

Module App.

(** The texts of the status bar and of the message boxes, by kind.  The
    warning about duplicates gives the number of skipped files, the names
    of the first five and, beyond five, the number of the others. *)
Inductive message :=
| CopiedToClipboard (p : Path)
| FailedToCopy (p : Path) (e : io_error)
| ClipboardIsEmpty
| PastedContent (p : Path)
| FailedToPaste (p : Path)
| FailedToRead (p : Path)
| RevertedToPrevious (p : Path)
| FailedToRevert (p : Path)
| NoPreviousVersions (p : Path)
| NoFilesSelectedToMove
| MovedToTop (n : nat)
| FileNotFound (p : Path)
| SkippedBinary (p : Path)
| CopiedCombined
| NoFilesToCombine
| CopiedPaths (n : nat)
| NoFilesToCopyPaths
| NoFilesWereSelected
| ReplacedFiles (n : nat)
| AddedFiles (n : nat)
| DuplicatesSkipped (n : nat) (skipped_names : list str) (more : option nat)
| NoFilesSelectedFromTab (k : str)
| AddedFromTab (n : nat) (k : str)
| AllAlreadyInList (k : str)
| RemovedFile (p : Path)
| SelectedAll
| DeselectedAll
| Rescanned
| DirectoryChanged (p : Path).

(** Where a message appears: the status bar only, a [QMessageBox.warning]
    or a [QMessageBox.critical] (the boxes repeat the status bar text). *)
Inductive event :=
| StatusBar (m : message)
| WarningBox (m : message)
| CriticalBox (m : message).

(** The fields of [CodeCombinerApp] that the operations read and write,
    with the clipboard, the disk and the messages shown so far.  A
    checkbox is its checked state; [checkboxes] pairs it with its path as
    the source does.  [previous_versions] holds Python lists: the most
    recent snapshot is the last element. *)
Record State := mkState {
  selected_directory : Path;
  file_paths : list Path;
  checked_file_paths : gset Path;
  checkboxes : list (bool * Path);
  tab_file_checkboxes : gmap str (list (bool * Path));
  previous_versions : gmap Path (list str);
  clipboard : str;
  fs : disk;
  shown : list event
}.

Definition with_directory (s : State) (d : Path) : State :=
  mkState d (file_paths s) (checked_file_paths s) (checkboxes s)
          (tab_file_checkboxes s) (previous_versions s) (clipboard s)
          (fs s) (shown s).

Definition with_file_paths (s : State) (l : list Path) : State :=
  mkState (selected_directory s) l (checked_file_paths s) (checkboxes s)
          (tab_file_checkboxes s) (previous_versions s) (clipboard s)
          (fs s) (shown s).

Definition with_checked (s : State) (c : gset Path) : State :=
  mkState (selected_directory s) (file_paths s) c (checkboxes s)
          (tab_file_checkboxes s) (previous_versions s) (clipboard s)
          (fs s) (shown s).

Definition with_checkboxes (s : State) (cbs : list (bool * Path)) : State :=
  mkState (selected_directory s) (file_paths s) (checked_file_paths s) cbs
          (tab_file_checkboxes s) (previous_versions s) (clipboard s)
          (fs s) (shown s).

Definition with_tabs (s : State) (t : gmap str (list (bool * Path))) : State :=
  mkState (selected_directory s) (file_paths s) (checked_file_paths s)
          (checkboxes s) t (previous_versions s) (clipboard s)
          (fs s) (shown s).

Definition with_versions (s : State) (v : gmap Path (list str)) : State :=
  mkState (selected_directory s) (file_paths s) (checked_file_paths s)
          (checkboxes s) (tab_file_checkboxes s) v (clipboard s)
          (fs s) (shown s).

Definition with_clipboard (s : State) (c : str) : State :=
  mkState (selected_directory s) (file_paths s) (checked_file_paths s)
          (checkboxes s) (tab_file_checkboxes s) (previous_versions s) c
          (fs s) (shown s).

Definition with_fs (s : State) (d : disk) : State :=
  mkState (selected_directory s) (file_paths s) (checked_file_paths s)
          (checkboxes s) (tab_file_checkboxes s) (previous_versions s)
          (clipboard s) d (shown s).

Definition show (s : State) (e : event) : State :=
  mkState (selected_directory s) (file_paths s) (checked_file_paths s)
          (checkboxes s) (tab_file_checkboxes s) (previous_versions s)
          (clipboard s) (fs s) (shown s ++ [e]).

(** *** Path filter and identifiers *)

Definition allowed_extensions : list str := [u ".py"].

Definition excluded_filenames : list str :=
  [u "__init__.py"; u "Codehelp.py"; u "analysis_depend.py"].

Definition excluded_dirs : list str :=
  [u "__pycache__"; u ".git"; u ".venv"; u "venv"; u ".idea"; u ".vscode"].

(** [fp.suffix.lower() in allowed_extensions and
     fp.name not in excluded_filenames] *)
Definition is_candidate (fp : Path) : bool :=
  bool_decide (lower (suffix fp) ∈ allowed_extensions)
  && negb (bool_decide (name fp ∈ excluded_filenames)).

Definition relative_or_absolute (file_path script_dir : Path) : str :=
  match relative_to file_path script_dir with
  | Some rel => as_posix rel
  | None => as_posix file_path
  end.

(** [f"# {relative_path}"] of [copy_file_code] and [paste_file_code]. *)
Definition single_identifier (file_path script_dir : Path) : str :=
  u "# " ++ relative_or_absolute file_path script_dir.

(** The identifier of [combine_code]: directory and file name, or the
    file name alone when the directory relative to the root is one of
    the empty string, "." and "(top-level)". *)
Definition combine_identifier (file_path script_dir : Path) : str :=
  let relative_dir :=
    match relative_to (parent file_path) script_dir with
    | Some rel => as_posix rel
    | None => as_posix (parent file_path)
    end in
  let file_name := name file_path in
  if bool_decide (relative_dir ∈ [[]; u "."; u "(top-level)"])
  then u "# " ++ file_name
  else u "# " ++ relative_dir ++ u "/" ++ file_name.

(** *** The file list *)

Definition check_file (s : State) (file_path : Path) : State :=
  with_checked s ({[file_path]} ∪ checked_file_paths s).

Definition uncheck_file (s : State) (file_path : Path) : State :=
  with_checked s (checked_file_paths s ∖ {[file_path]}).

(** [display_filenames]: the rows are rebuilt from [file_paths]; each
    checkbox is set from [checked_file_paths]. *)
Definition display_filenames (s : State) : State :=
  with_checkboxes s
    ((fun fp => (bool_decide (fp ∈ checked_file_paths s), fp))
       <$> file_paths s).

(** The loop that keeps the first path of every file name. *)
Definition unique_step (acc : list Path * gset str) (fp : Path)
  : list Path * gset str :=
  if decide (name fp ∈ acc.2) then acc
  else (acc.1 ++ [fp], {[name fp]} ∪ acc.2).

Definition unique_by_name (l : list Path) : list Path :=
  (foldl unique_step ([], ∅) l).1.

(** [dir_rel] of the scan: the label of the tab a file goes to. *)
Definition dir_label (file_path script_dir : Path) : str :=
  match relative_to (parent file_path) script_dir with
  | Some rel =>
      let dir_rel := as_posix rel in
      if decide (dir_rel = u ".") then u "(top-level)" else dir_rel
  | None => as_posix (parent file_path)
  end.

(** Whether [os.walk] misses a file because a directory between the root
    and the file is named in [excluded_dirs] and so is never entered. *)
Definition pruned (file_path script_dir : Path) : bool :=
  match relative_to (parent file_path) script_dir with
  | Some rel => bool_decide (Exists (fun d => d ∈ excluded_dirs) (parts rel))
  | None => false
  end.

(** [scan_and_display_directory_files]; [walked] lists the files below
    the root in the order in which [os.walk] comes to them.  All tab
    checkboxes start unchecked. *)
Definition scan_and_display_directory_files (s : State) (walked : list Path)
  : State :=
  let script_dir := selected_directory s in
  with_tabs s
    (foldl (fun grouped file_path =>
              if negb (pruned file_path script_dir)
                 && is_candidate file_path then
                let k := dir_label file_path script_dir in
                <[k := default [] (grouped !! k) ++ [(false, file_path)]]>
                  grouped
              else grouped)
           ∅ walked).

Definition filter_and_scan_file_paths (s : State) (walked : list Path)
  : State :=
  let filtered_file_paths := filter (fun fp => is_candidate fp) (file_paths s) in
  let s := with_file_paths s (unique_by_name filtered_file_paths) in
  display_filenames (scan_and_display_directory_files s walked).

Definition reload_files (s : State) (walked : list Path) : State :=
  show (filter_and_scan_file_paths s walked) (StatusBar Rescanned).

(** [select_directory]; [None] when the dialog is cancelled. *)
Definition select_directory (s : State) (chosen_dir : option Path)
  (walked : list Path) : State :=
  match chosen_dir with
  | Some d =>
      show (filter_and_scan_file_paths (with_directory s d) walked)
           (StatusBar (DirectoryChanged d))
  | None => s
  end.

(** [upload_files_replace]; [selection] is what the file dialog returns,
    [None] when it is cancelled. *)
Definition upload_files_replace (s : State) (selection : option (list Path))
  : State :=
  match selection with
  | None => s
  | Some [] => show s (StatusBar NoFilesWereSelected)
  | Some new_file_paths =>
      let filtered_file_paths :=
        filter (fun fp => is_candidate fp) new_file_paths in
      let unique_file_paths := unique_by_name filtered_file_paths in
      let s := with_file_paths s unique_file_paths in
      let s := with_checked s (list_to_set unique_file_paths) in
      show (display_filenames s)
           (StatusBar (ReplacedFiles (length unique_file_paths)))
  end.

(** One round of the loop of [upload_files_add]: the state, the names
    present, the paths added and the paths skipped. *)
Definition add_step (acc : State * gset str * list Path * list Path)
  (file_path : Path) : State * gset str * list Path * list Path :=
  let '(s, existing_file_names, added_files, skipped_files) := acc in
  if decide (name file_path ∈ existing_file_names) then
    (s, existing_file_names, added_files, skipped_files ++ [file_path])
  else
    (check_file (with_file_paths s (file_paths s ++ [file_path])) file_path,
     {[name file_path]} ∪ existing_file_names,
     added_files ++ [file_path], skipped_files).

Definition upload_files_add (s : State) (selection : option (list Path))
  : State :=
  match selection with
  | None => s
  | Some [] => show s (StatusBar NoFilesWereSelected)
  | Some new_file_paths =>
      let filtered_file_paths :=
        filter (fun fp => is_candidate fp) new_file_paths in
      let existing_file_names : gset str :=
        list_to_set (name <$> file_paths s) in
      let '(s, _, added_files, skipped_files) :=
        foldl add_step (s, existing_file_names, [], []) filtered_file_paths in
      let s := display_filenames s in
      let s := match added_files with
               | [] => s
               | _ => show s (StatusBar (AddedFiles (length added_files)))
               end in
      match skipped_files with
      | [] => s
      | _ =>
          let skipped_names := name <$> take 5 skipped_files in
          let more :=
            if decide (5 < length skipped_files)%nat
            then Some (length skipped_files - 5)%nat else None in
          show s (WarningBox (DuplicatesSkipped (length skipped_files)
                                                skipped_names more))
      end
  end.

(** One round of the loop of [add_selected_files_from_tab]. *)
Definition tab_step (acc : State * gset str * list Path * bool)
  (row : bool * Path) : State * gset str * list Path * bool :=
  let '(s, existing_names, newly_added, any_checked) := acc in
  let '(is_checked, file_path) := row in
  if is_checked then
    if decide (name file_path ∈ existing_names) then
      (s, existing_names, newly_added, true)
    else
      (check_file (with_file_paths s (file_paths s ++ [file_path])) file_path,
       {[name file_path]} ∪ existing_names,
       newly_added ++ [file_path], true)
  else acc.

Definition add_selected_files_from_tab (s : State) (dir_key : str) : State :=
  match tab_file_checkboxes s !! dir_key with
  | None => s
  | Some rows =>
      let existing_names : gset str := list_to_set (name <$> file_paths s) in
      let '(s, _, newly_added, any_checked) :=
        foldl tab_step (s, existing_names, [], false) rows in
      if negb any_checked then
        show s (StatusBar (NoFilesSelectedFromTab dir_key))
      else
        match newly_added with
        | [] => show s (StatusBar (AllAlreadyInList dir_key))
        | _ => show (display_filenames s)
                    (StatusBar (AddedFromTab (length newly_added) dir_key))
        end
  end.

(** [list.remove]: the first occurrence goes. *)
Fixpoint list_remove (x : Path) (l : list Path) : list Path :=
  match l with
  | [] => []
  | y :: l' => if decide (x = y) then l' else y :: list_remove x l'
  end.

Definition remove_file (s : State) (file_path : Path) : State :=
  if bool_decide (file_path ∈ file_paths s) then
    let s := with_file_paths s (list_remove file_path (file_paths s)) in
    let s := uncheck_file s file_path in
    show (display_filenames s) (StatusBar (RemovedFile file_path))
  else s.

(** [checkbox_state_changed] for the row [i], after Qt has set its
    checkbox to [state]. *)
Definition checkbox_state_changed (s : State) (i : nat) (state : bool)
  : State :=
  match checkboxes s !! i with
  | None => s
  | Some (_, file_path) =>
      let s := with_checkboxes s (<[i := (state, file_path)]> (checkboxes s)) in
      if state then check_file s file_path else uncheck_file s file_path
  end.

Definition select_all_files (s : State) : State :=
  let s := foldl (fun s row => check_file s row.2) s (checkboxes s) in
  show (with_checkboxes s ((fun row => (true, row.2)) <$> checkboxes s))
       (StatusBar SelectedAll).

Definition unselect_all_files (s : State) : State :=
  let s := foldl (fun s row => uncheck_file s row.2) s (checkboxes s) in
  show (with_checkboxes s ((fun row => (false, row.2)) <$> checkboxes s))
       (StatusBar DeselectedAll).

(** A click on a checkbox of a directory tab, and the two tab buttons. *)
Definition tab_checkbox_clicked (s : State) (dir_key : str) (i : nat)
  (state : bool) : State :=
  match tab_file_checkboxes s !! dir_key with
  | None => s
  | Some rows =>
      match rows !! i with
      | None => s
      | Some (_, fp) =>
          with_tabs s (<[dir_key := <[i := (state, fp)]> rows]>
                         (tab_file_checkboxes s))
      end
  end.

Definition set_all_in_tab (s : State) (dir_key : str) (state : bool) : State :=
  match tab_file_checkboxes s !! dir_key with
  | None => s
  | Some rows =>
      with_tabs s (<[dir_key := (fun row => (state, row.2)) <$> rows]>
                     (tab_file_checkboxes s))
  end.

Definition select_all_in_tab (s : State) (dir_key : str) : State :=
  set_all_in_tab s dir_key true.

Definition deselect_all_in_tab (s : State) (dir_key : str) : State :=
  set_all_in_tab s dir_key false.

Definition move_checked_files_to_head (s : State) : State :=
  let checked_files := (filter (fun row => row.1 = true) (checkboxes s)).*2 in
  let unchecked_files :=
    (filter (fun row => row.1 = false) (checkboxes s)).*2 in
  match checked_files with
  | [] => show s (StatusBar NoFilesSelectedToMove)
  | _ =>
      let s := with_file_paths s (checked_files ++ unchecked_files) in
      show (display_filenames s)
           (StatusBar (MovedToTop (length checked_files)))
  end.

(** *** Version history *)

(** The end of [save_current_version], once the file has been read: the
    content goes on top of the path's list, and a list that grows beyond
    five loses its oldest element. *)
Definition push_version (versions : gmap Path (list str)) (file_path : Path)
  (current_content : str) : gmap Path (list str) :=
  let history := default [] (versions !! file_path) ++ [current_content] in
  <[file_path := if decide (5 < length history)%nat then drop 1 history
                 else history]> versions.

Definition save_current_version (s : State) (file_path : Path) : State :=
  match read_text (fs s) file_path with
  | Raise _ => show s (CriticalBox (FailedToRead file_path))
  | Ok current_content =>
      with_versions s
        (push_version (previous_versions s) file_path current_content)
  end.

(** [l.pop()]: the last element and the list without it. *)
Definition list_pop (l : list str) : option (str * list str) :=
  match reverse l with
  | [] => None
  | x :: r => Some (x, reverse r)
  end.

Definition revert_file_code (s : State) (file_path : Path) : State :=
  match previous_versions s !! file_path ≫= list_pop with
  | Some (previous_code, rest) =>
      let s := with_versions s (<[file_path := rest]> (previous_versions s)) in
      match write_text (fs s) file_path previous_code with
      | Some d => show (with_fs s d) (StatusBar (RevertedToPrevious file_path))
      | None => show s (CriticalBox (FailedToRevert file_path))
      end
  | None => show s (WarningBox (NoPreviousVersions file_path))
  end.

(** *** Copy and paste of one file *)

Definition copy_file_code (s : State) (file_path : Path) : State :=
  match read_text (fs s) file_path with
  | Raise e => show s (CriticalBox (FailedToCopy file_path e))
  | Ok text =>
      let file_code := readlines text in
      let file_identifier :=
        single_identifier file_path (selected_directory s) in
      let clipboard_content :=
        match file_code with
        | line0 :: _ =>
            let first_line := strip line0 in
            if decide (first_line ≠ file_identifier)
            then file_identifier ++ [LF] ++ join_empty file_code
            else join_empty file_code
        | [] => file_identifier ++ [LF]
        end in
      let s := with_clipboard s clipboard_content in
      let s := save_current_version s file_path in
      show s (StatusBar (CopiedToClipboard file_path))
  end.

(** The choice of [content_to_write] in [paste_file_code], for the lines
    [line0 :: more] of the clipboard text. *)
Definition content_to_write (d : disk) (script_dir file_path : Path)
  (clipboard_text : str) (line0 : str) (more : list str) : result str :=
  let lines := line0 :: more in
  let expected_first_line := single_identifier file_path script_dir in
  let first_line := strip line0 in
  if decide (first_line = expected_first_line) then Ok clipboard_text
  else if exists_ d file_path then
    match read_text d file_path with
    | Raise e => Raise e
    | Ok text =>
        match splitlines text with
        | existing0 :: _ =>
            let existing_first_line := strip existing0 in
            if decide (existing_first_line = expected_first_line) then
              let remaining_content := join_lf lines in
              Ok (existing_first_line ++ [LF] ++ remaining_content)
            else Ok (expected_first_line ++ [LF] ++ clipboard_text)
        | [] => Ok (expected_first_line ++ [LF] ++ clipboard_text)
        end
    end
  else Ok (expected_first_line ++ [LF] ++ clipboard_text).

Definition paste_file_code (s : State) (file_path : Path) : State :=
  let clipboard_text := clipboard s in
  match clipboard_text with
  | [] => show s (WarningBox ClipboardIsEmpty)
  | _ =>
      match splitlines clipboard_text with
      | [] => show s (WarningBox ClipboardIsEmpty)
      | line0 :: more =>
          match content_to_write (fs s) (selected_directory s) file_path
                                 clipboard_text line0 more with
          | Raise _ => show s (CriticalBox (FailedToPaste file_path))
          | Ok content =>
              let s := save_current_version s file_path in
              match write_text (fs s) file_path content with
              | Some d =>
                  show (with_fs s d) (StatusBar (PastedContent file_path))
              | None => show s (CriticalBox (FailedToPaste file_path))
              end
          end
      end
  end.

(** *** Combination *)

(** One round of the loop of [combine_code]: the text so far and the
    messages it has caused. *)
Definition combine_step (d : disk) (script_dir : Path)
  (acc : str * list event) (file_path : Path) : str * list event :=
  let '(combined_code, msgs) := acc in
  if negb (exists_ d file_path) then
    (combined_code, msgs ++ [WarningBox (FileNotFound file_path)])
  else
    match read_text d file_path with
    | Raise UnicodeDecodeError =>
        (combined_code, msgs ++ [WarningBox (SkippedBinary file_path)])
    | Raise _ =>
        (combined_code, msgs ++ [CriticalBox (FailedToRead file_path)])
    | Ok text =>
        let lines := readlines text in
        let file_identifier := combine_identifier file_path script_dir in
        let lines :=
          match lines with
          | line0 :: _ =>
              let first_line := strip line0 in
              if decide (first_line ≠ strip file_identifier)
              then (file_identifier ++ [LF]) :: lines
              else lines
          | [] => [file_identifier ++ [LF]]
          end in
        let file_content := join_empty lines in
        (combined_code ++ file_content ++ [LF; LF], msgs)
    end.

Definition selected_files (s : State) : list Path :=
  (filter (fun row => row.1 = true) (checkboxes s)).*2.

(** [combine_code]: the combined text and the messages shown meanwhile. *)
Definition combine_code (s : State) : str * list event :=
  foldl (combine_step (fs s) (selected_directory s)) ([], [])
        (selected_files s).

Definition copy_combined_code (s : State) : State :=
  let '(combined_code, msgs) := combine_code s in
  let s := foldl show s msgs in
  match strip combined_code with
  | [] => show s (WarningBox NoFilesToCombine)
  | _ => show (with_clipboard s combined_code) (StatusBar CopiedCombined)
  end.

Definition copy_all_file_paths (s : State) : State :=
  match selected_files s with
  | [] => show s (WarningBox NoFilesToCopyPaths)
  | selected_file_paths =>
      let relative_file_info :=
        (fun fp => relative_or_absolute fp (selected_directory s))
          <$> selected_file_paths in
      show (with_clipboard s (join_lf relative_file_info))
           (StatusBar (CopiedPaths (length selected_file_paths)))
  end.

(** *** Sessions *)

(** [__init__]: the stored file list and directory, empty selection and
    history, then the first [filter_and_scan_file_paths]. *)
Definition init (stored_paths : list Path) (stored_dir : Path)
  (clip : str) (d : disk) (walked : list Path) : State :=
  filter_and_scan_file_paths
    (mkState stored_dir stored_paths ∅ [] ∅ ∅ clip d []) walked.

(** What can happen between two states: a user action, or a change of
    the clipboard or of the disk made outside the application. *)
Inductive action :=
| SelectDirectory (chosen_dir : option Path) (walked : list Path)
| ReloadFiles (walked : list Path)
| UploadFilesReplace (selection : option (list Path))
| UploadFilesAdd (selection : option (list Path))
| AddSelectedFilesFromTab (dir_key : str)
| TabCheckboxClicked (dir_key : str) (i : nat) (state : bool)
| SelectAllInTab (dir_key : str)
| DeselectAllInTab (dir_key : str)
| CheckboxClicked (i : nat) (state : bool)
| SelectAllFiles
| UnselectAllFiles
| RemoveFile (file_path : Path)
| CopyFileCode (file_path : Path)
| PasteFileCode (file_path : Path)
| RevertFileCode (file_path : Path)
| MoveCheckedFilesToHead
| CopyCombinedCode
| CopyAllFilePaths
| ClipboardChanged (text : str)
| DiskChanged (d : disk).

Definition step (s : State) (a : action) : State :=
  match a with
  | SelectDirectory chosen_dir walked => select_directory s chosen_dir walked
  | ReloadFiles walked => reload_files s walked
  | UploadFilesReplace selection => upload_files_replace s selection
  | UploadFilesAdd selection => upload_files_add s selection
  | AddSelectedFilesFromTab dir_key => add_selected_files_from_tab s dir_key
  | TabCheckboxClicked dir_key i state =>
      tab_checkbox_clicked s dir_key i state
  | SelectAllInTab dir_key => select_all_in_tab s dir_key
  | DeselectAllInTab dir_key => deselect_all_in_tab s dir_key
  | CheckboxClicked i state => checkbox_state_changed s i state
  | SelectAllFiles => select_all_files s
  | UnselectAllFiles => unselect_all_files s
  | RemoveFile file_path => remove_file s file_path
  | CopyFileCode file_path => copy_file_code s file_path
  | PasteFileCode file_path => paste_file_code s file_path
  | RevertFileCode file_path => revert_file_code s file_path
  | MoveCheckedFilesToHead => move_checked_files_to_head s
  | CopyCombinedCode => copy_combined_code s
  | CopyAllFilePaths => copy_all_file_paths s
  | ClipboardChanged text => with_clipboard s text
  | DiskChanged d => with_fs s d
  end.

(** The states of a session: the one [__init__] builds, and every state
    an action leads to from there. *)
Inductive reachable : State -> Prop :=
| reachable_init stored_paths stored_dir clip d walked :
    reachable (init stored_paths stored_dir clip d walked)
| reachable_step s a : reachable s -> reachable (step s a).

End App.

Import App.

(** ** Observations and invariants *)

(** [lines[0].strip()] for [lines = text.splitlines()], when there is a
    first line. *)
Definition stripped_first_line (text : str) : option str :=
  strip <$> head (splitlines text).

(** What [paste_file_code] leaves at the target path. *)
Definition written (s : State) (file_path : Path) : option entry :=
  files (fs (paste_file_code s file_path)) !! file_path.

(** Header injection as the specification's identifier codec words it:
    the text unchanged when its first line, stripped, is the identifier,
    and otherwise behind a new first line holding the identifier. *)
Definition ensure_identifier (identifier text : str) : str :=
  match readlines text with
  | line0 :: _ =>
      if decide (strip line0 = strip identifier) then text
      else identifier ++ [LF] ++ text
  | [] => identifier ++ [LF] ++ text
  end.

(** The part one checked file contributes to the combined text: nothing
    when it is missing or unreadable. *)
Definition combined_part (d : disk) (script_dir file_path : Path) : str :=
  match read_text d file_path with
  | Ok text =>
      ensure_identifier (combine_identifier file_path script_dir) text
        ++ [LF; LF]
  | Raise _ => []
  end.

(** The history list of a path, empty when the path has none. *)
Definition history (s : State) (file_path : Path) : list str :=
  default [] (previous_versions s !! file_path).

(** [n] snapshots taken in a row for one path, oldest first, by the
    history update of [save_current_version]. *)
Definition snapshots (s : State) (file_path : Path) (contents : list str)
  : State :=
  with_versions s
    (foldl (fun versions c => push_version versions file_path c)
           (previous_versions s) contents).



(** The first path of a list that carries a given file name. *)
Definition first_with_name (n : str) (l : list Path) : option Path :=
  head (filter (fun q => name q = n) l).

(** What holds of the file list between two actions: no file name occurs
    twice, and the rows shown are the paths of the list, each checkbox
    telling whether its path is in the checked set. *)
Definition consistent (s : State) : Prop :=
  NoDup (name <$> file_paths s)
  /\ checkboxes s =
       (fun fp => (bool_decide (fp ∈ checked_file_paths s), fp))
         <$> file_paths s.

(** An action pushes no snapshot when it leaves every history as it was
    or shorter at its recent end. *)
Definition pushes_no_snapshot (s : State) (a : action) : Prop :=
  forall p, history (step s a) p `prefix_of` history s p.

(** What the adding loops keep true, [s0] being the state they start in:
    the set of names is the one of the list, no name occurs twice, the
    list only grows at its end, and the histories stay as they are. *)
Definition adding (s0 s : State) (names : gset str) : Prop :=
  names = list_to_set (name <$> file_paths s)
  /\ NoDup (name <$> file_paths s)
  /\ file_paths s0 `prefix_of` file_paths s
  /\ previous_versions s = previous_versions s0.

(** Two states with the same file list, checked set and rows. *)
Definition same_list (s s' : State) : Prop :=
  file_paths s' = file_paths s
  /\ checked_file_paths s' = checked_file_paths s
  /\ checkboxes s' = checkboxes s.

(** The situation of the second branch of [paste_file_code]: a non-empty
    clipboard without the identifier, pasted to a file that has it. *)
Definition keeps_existing_identifier (s : State) (file_path : Path) : Prop :=
  let expected := single_identifier file_path (selected_directory s) in
  clipboard s ≠ []
  /\ stripped_first_line (clipboard s) ≠ Some expected
  /\ exists text, read_text (fs s) file_path = Ok text
                  /\ stripped_first_line text = Some expected.

(** The reading that [save_current_version] does fails. *)
Definition snapshot_read_fails (s : State) (file_path : Path) : Prop :=
  exists e, read_text (fs s) file_path = Raise e.

(** A paste that gives up: the disk as before, the read error shown. *)
Definition paste_aborted (s : State) (file_path : Path) : Prop :=
  fs (paste_file_code s file_path) = fs s
  /\ CriticalBox (FailedToRead file_path)
       ∈ shown (paste_file_code s file_path).

(** The whitespace a text starts with. *)
Fixpoint leading_space (s : str) : str :=
  match s with
  | [] => []
  | c :: s' => if is_space c then c :: leading_space s' else []
  end.

(** A text up to its first line-break character, which is the first line
    [splitlines] finds in it. *)
Fixpoint upto_break (s : str) : str :=
  match s with
  | [] => []
  | c :: s' => if is_linebreak c then [] else c :: upto_break s'
  end.

(** A text up to and with its first "\n", which is the first line
    [readlines] finds in it. *)
Fixpoint upto_lf (s : str) : str :=
  match s with
  | [] => []
  | c :: s' => if c =? LF then [c] else c :: upto_lf s'
  end.

Definition all_space (l : str) : Prop :=
  Forall (fun c => is_space c = true) l.

Definition no_linebreak (l : str) : Prop :=
  Forall (fun c => is_linebreak c = false) l.


(** ** Sample data *)

(** A project directory with two files, and a session opened on it. *)
Definition ex_root : Path := mkPath (u "/") [u "proj"].
Definition ex_foo : Path := child ex_root (u "foo.py").
Definition ex_bar : Path := child (child ex_root (u "sub")) (u "bar.py").

Definition ex_disk : disk :=
  mkDisk (<[ex_foo := TextFile (u "print(1)" ++ [LF])]>
            (<[ex_bar := TextFile (u "print(2)" ++ [LF])]> ∅)) ∅.

Definition ex_session : State :=
  upload_files_replace (init [] ex_root [] ex_disk [ex_foo; ex_bar])
                       (Some [ex_foo; ex_bar]).

(** A session whose file foo.py cannot be written, with two snapshots. *)
Definition ex_locked : State :=
  snapshots (with_fs ex_session (mkDisk (files ex_disk) {[ex_foo]}))
            ex_foo [u "v1"; u "v2"].

(** The sample session after the checkbox of foo.py has been cleared. *)
Definition ex_unchecked : State := checkbox_state_changed ex_session 0 false.

(** A third file, named like [ex_bar] but in another directory. *)
Definition ex_bar2 : Path := child ex_root (u "bar.py").

(** The sample session with foo.py carrying its identifier and a
    clipboard that ends with two newlines. *)
Definition ex_two_newlines : State :=
  with_clipboard
    (with_fs ex_session
       (mkDisk (<[ex_foo := TextFile (u "# foo.py" ++ [LF] ++ u "print(1)"
                                        ++ [LF])]> (files ex_disk)) ∅))
    (u "print(3)" ++ [LF; LF]).

(** The sample session with foo.py holding bytes that do not decode, and
    a clipboard that carries the identifier of foo.py. *)
Definition ex_binary : State :=
  with_clipboard
    (with_fs ex_session (mkDisk (<[ex_foo := Binary]> (files ex_disk)) ∅))
    (u "# foo.py" ++ [LF] ++ u "print(3)" ++ [LF]).

(** A path of the project at which the disk holds nothing. *)
Definition ex_new : Path := child ex_root (u "new.py").

Definition ex_paste_new : State :=
  with_clipboard ex_session (u "print(3)" ++ [LF]).

(** The sample session with a form feed before the identifier line of
    foo.py. *)
Definition ex_formfeed : State :=
  with_fs ex_session
    (mkDisk (<[ex_foo := TextFile ([FF] ++ u "# foo.py" ++ [LF]
                                     ++ u "print(1)" ++ [LF])]>
               (files ex_disk)) ∅).

(** ** Further observations *)

(** Every entry of the file list passes the path filter. *)
Definition listed_candidates (s : State) : Prop :=
  Forall (fun fp => is_candidate fp) (file_paths s).

(** Every row of every directory tab passes the path filter. *)
Definition tabs_candidates (s : State) : Prop :=
  forall k rows, tab_file_checkboxes s !! k = Some rows ->
                 Forall (fun row : bool * Path => is_candidate row.2) rows.

(** Every checked path is an entry of the file list. *)
Definition checked_listed (s : State) : Prop :=
  forall fp, fp ∈ checked_file_paths s -> fp ∈ file_paths s.

(** The three together, with [consistent]. *)
Definition tidy (s : State) : Prop :=
  consistent s /\ listed_candidates s /\ tabs_candidates s
  /\ checked_listed s.

(** The step of the grouping loop of [scan_and_display_directory_files]. *)
Definition group_step (script_dir : Path)
  (grouped : gmap str (list (bool * Path))) (file_path : Path)
  : gmap str (list (bool * Path)) :=
  if negb (pruned file_path script_dir) && is_candidate file_path then
    let k := dir_label file_path script_dir in
    <[k := default [] (grouped !! k) ++ [(false, file_path)]]> grouped
  else grouped.

(** A file of the project in a directory that is called "(top-level)",
    and a session in which it is the one checked file. *)
Definition ex_top : Path :=
  child (child ex_root (u "(top-level)")) (u "x.py").

Definition ex_top_session : State :=
  upload_files_replace
    (init [] ex_root []
       (mkDisk (<[ex_top := TextFile (u "print(1)" ++ [LF])]> ∅) ∅) [ex_top])
    (Some [ex_top]).

(** * Properties *)

(** ** Python's string methods on small inputs *)

Example splitlines_crlf_and_blank :
  splitlines (u "a" ++ [CR; LF] ++ u "b" ++ [LF; LF]) = [u "a"; u "b"; []].
Proof. reflexivity. Qed.

Example splitlines_form_feed : splitlines ([FF] ++ u "#" ++ [LF]) = [[]; u "#"].
Proof. reflexivity. Qed.

Example splitlines_single_newline : splitlines [LF] = [[]].
Proof. reflexivity. Qed.

Example strip_both_ends : strip (u "  # a.py " ++ [LF]) = u "# a.py".
Proof. reflexivity. Qed.

Example readlines_keeps_ends :
  readlines (u "a" ++ [LF] ++ u "b") = [u "a" ++ [LF]; u "b"].
Proof. reflexivity. Qed.

Example readlines_ignores_form_feed :
  readlines ([FF] ++ u "#" ++ [LF]) = [[FF] ++ u "#" ++ [LF]].
Proof. reflexivity. Qed.

Example universal_newlines_crlf :
  universal_newlines (u "a" ++ [CR; LF] ++ u "b" ++ [CR]) =
    u "a" ++ [LF] ++ u "b" ++ [LF].
Proof. reflexivity. Qed.

Example suffix_of_module : suffix (child ex_root (u "a.b.PY")) = u ".PY".
Proof. reflexivity. Qed.

Example suffix_of_dotfile : suffix (child ex_root (u ".py")) = [].
Proof. reflexivity. Qed.

Example excluded_is_no_candidate :
  is_candidate (child ex_root (u "__init__.py")) = false
  /\ is_candidate (child ex_root (u "a.PY")) = true
  /\ is_candidate (child ex_root (u "a.txt")) = false.
Proof. by vm_compute. Qed.

Example identifier_under_root :
  single_identifier ex_bar ex_root = u "# sub/bar.py"
  /\ single_identifier ex_bar (child ex_root (u "other"))
     = u "# /proj/sub/bar.py".
Proof. by vm_compute. Qed.

(** ** Texts *)

Section text_facts.

Implicit Types (s t : str) (c : char).

Lemma splitlines_nonempty s : s ≠ [] -> exists line0 more, splitlines s = line0 :: more.
Proof.
  destruct s as [|c s']; [done|intros _]. simpl.
  destruct (is_linebreak c); [eauto|].
  destruct (splitlines s'); eauto.
Qed.

Lemma join_empty_readlines s : join_empty (readlines s) = s.
Proof.
  unfold join_empty. induction s as [|c s' IH]; [done|]. simpl.
  destruct (c =? LF); simpl; [by rewrite IH|].
  destruct (readlines s') as [|l ls]; simpl in *; by rewrite <- IH.
Qed.

End text_facts.

Section line_facts.

Implicit Types (s t l : str) (c : char) (ls : list str).

Lemma LF_linebreak : is_linebreak LF = true.
Proof. done. Qed.

(** Induction over a text that may drop one or two leading characters. *)
Lemma str_ind2 (P : list char -> Prop) :
  P [] ->
  (forall (c : char) (s : list char),
     P s -> (forall c' s', s = c' :: s' -> P s') -> P (c :: s)) ->
  forall s : list char, P s.
Proof.
  intros Hnil Hcons s.
  assert (P s /\ forall c' s', s = c' :: s' -> P s') as [? _]; [|done].
  induction s as [|c s [IH1 IH2]]; [by split|]. split.
  - by apply Hcons.
  - by intros c' s' [= -> ->].
Qed.

Lemma splitlines_no_linebreak s : Forall no_linebreak (splitlines s).
Proof.
  induction s as [|c s IH1 IH2] using str_ind2; [constructor|]. simpl.
  destruct (is_linebreak c) eqn:Hc.
  - constructor; [constructor|].
    destruct s as [|c' s']; [constructor|].
    destruct ((c =? CR) && (c' =? LF)); [by eapply IH2|done].
  - destruct (splitlines s) as [|l ls]; constructor.
    + by constructor.
    + constructor.
    + apply Forall_cons in IH1 as [Hl _]. by constructor.
    + by apply Forall_cons in IH1 as [_ ?].
Qed.

Lemma last_join_lf ls l :
  last ls = Some l ->
  (l = [] -> join_lf ls = [] \/ last (join_lf ls) = Some LF)
  /\ (l ≠ [] -> last (join_lf ls) = last l).
Proof.
  induction ls as [|l0 ls IH]; [done|]. intros Hlast.
  destruct ls as [|l1 ls].
  - simpl in *. injection Hlast as ->. split; [by left|done].
  - rewrite last_cons_cons in Hlast. specialize (IH Hlast).
    change (join_lf (l0 :: l1 :: ls)) with (l0 ++ LF :: join_lf (l1 :: ls)).
    rewrite last_app_cons. destruct IH as [IH1 IH2]. split.
    + intros Hl. right. destruct (IH1 Hl) as [->|H]; [done|].
      rewrite last_cons. by rewrite H.
    + intros Hl. rewrite last_cons, (IH2 Hl).
      destruct l as [|x l _] using rev_ind; [done|]. by rewrite last_snoc.
Qed.

(** The text after an identifier line ends with a newline exactly when
    the last of the joined lines is empty. *)
Lemma last_joined_lines identifier s :
  s ≠ [] ->
  last (identifier ++ [LF] ++ join_lf (splitlines s)) = Some LF
  <-> last (splitlines s) = Some [].
Proof.
  intros Hs. destruct (splitlines_nonempty s Hs) as (l0 & more & Hl).
  assert (exists l, last (splitlines s) = Some l) as [l Hlast].
  { rewrite Hl. destruct (last (l0 :: more)) eqn:E; [eauto|].
    by apply last_None in E. }
  destruct (last_join_lf _ _ Hlast) as [H1 H2].
  rewrite Hlast. cbn [app]. rewrite last_app_cons. split.
  - intros Hend. destruct (decide (l = [])) as [->|Hne]; [done|].
    exfalso. specialize (H2 Hne).
    assert (no_linebreak l) as Hnb.
    { pose proof (splitlines_no_linebreak s) as Hall.
      rewrite Forall_forall in Hall. apply Hall.
      by apply last_Some_elem_of. }
    unfold no_linebreak in Hnb. rewrite Forall_forall in Hnb.
    assert (last l = Some LF) as Hl'.
    { rewrite <- H2. destruct (join_lf (splitlines s)) as [|y j] eqn:Hj.
      - symmetry in H2. by apply last_None in H2.
      - by rewrite last_cons_cons in Hend. }
    apply last_Some_elem_of, Hnb in Hl'. done.
  - intros [= ->]. destruct (H1 eq_refl) as [->|Hj]; [done|].
    rewrite last_cons. by rewrite Hj.
Qed.

Lemma splitlines_crlf s : splitlines (CR :: LF :: s) = [] :: splitlines s.
Proof. done. Qed.

Lemma splitlines_break c s :
  is_linebreak c = true -> c ≠ CR \/ head s ≠ Some LF ->
  splitlines (c :: s) = [] :: splitlines s.
Proof.
  intros Hc Hno. cbn [splitlines]. rewrite Hc.
  destruct s as [|c' s']; [done|].
  replace ((c =? CR) && (c' =? LF)) with false; [done|].
  symmetry. apply andb_false_iff.
  destruct Hno as [Hno|Hno]; [left|right]; apply N.eqb_neq; [done|].
  intros ->. by apply Hno.
Qed.

Lemma splitlines_char c s :
  is_linebreak c = false ->
  splitlines (c :: s) = match splitlines s with
                        | [] => [[c]]
                        | l :: ls => (c :: l) :: ls
                        end.
Proof. intros Hc. cbn [splitlines]. by rewrite Hc. Qed.

(** A leading terminator: a carriage return with the line feed after it,
    or a single line-break character. *)
Lemma splitlines_break_cases c s :
  is_linebreak c = true ->
  (exists s', c = CR /\ s = LF :: s' /\ splitlines (c :: s) = [] :: splitlines s')
  \/ splitlines (c :: s) = [] :: splitlines s.
Proof.
  intros Hc. destruct (decide (c = CR)) as [->|Hne].
  - destruct s as [|c' s']; [by right|].
    destruct (decide (c' = LF)) as [->|Hne'].
    + left. by exists s'.
    + right. apply splitlines_break; [done|]. right. simpl. congruence.
  - right. apply splitlines_break; auto.
Qed.

Lemma splitlines_ends_with_line body c :
  is_linebreak c = false ->
  exists ls l, splitlines (body ++ [c; LF]) = ls ++ [l ++ [c]].
Proof.
  intros Hc.
  induction body as [|x body IH1 IH2] using str_ind2.
  { exists [], []. simpl. by rewrite Hc. }
  change ((x :: body) ++ [c; LF]) with (x :: body ++ [c; LF]).
  destruct (is_linebreak x) eqn:Hx.
  - destruct (splitlines_break_cases x (body ++ [c; LF]) Hx)
      as [(s' & Hcr & Hs' & Heq)|Heq]; rewrite Heq.
    + destruct body as [|y body'].
      * simpl in Hs'. injection Hs' as -> _. done.
      * injection Hs' as -> <-.
        destruct (IH2 LF body' eq_refl) as (ls & l & ->).
        by exists ([] :: ls), l.
    + destruct IH1 as (ls & l & ->). by exists ([] :: ls), l.
  - rewrite splitlines_char by done.
    destruct IH1 as (ls & l & ->). destruct ls as [|l0 ls]; simpl.
    + by exists [], (x :: l).
    + by exists ((x :: l0) :: ls), l.
Qed.

Lemma splitlines_ends_with_empty body :
  exists l0 ls, splitlines (body ++ [LF; LF]) = l0 :: ls ++ [[]].
Proof.
  induction body as [|x body IH1 IH2] using str_ind2.
  { by exists [], []. }
  change ((x :: body) ++ [LF; LF]) with (x :: body ++ [LF; LF]).
  destruct (is_linebreak x) eqn:Hx.
  - destruct (splitlines_break_cases x (body ++ [LF; LF]) Hx)
      as [(s' & Hcr & Hs' & Heq)|Heq]; rewrite Heq.
    + destruct body as [|y body'].
      * simpl in Hs'. injection Hs' as <-. by exists [], [].
      * injection Hs' as -> <-.
        destruct (IH2 LF body' eq_refl) as (l0 & ls & ->).
        by exists [], (l0 :: ls).
    + destruct IH1 as (l0 & ls & ->). by exists [], (l0 :: ls).
  - rewrite splitlines_char by done.
    destruct IH1 as (l0 & ls & ->). by exists (x :: l0), ls.
Qed.

End line_facts.

Section strip_facts.

Implicit Types (s a b pre post : str) (c : char).

Lemma lstrip_split s : s = leading_space s ++ lstrip s.
Proof.
  induction s as [|c s IH]; [done|]. simpl.
  destruct (is_space c); [|done]. simpl. by rewrite <- IH.
Qed.

Lemma leading_space_all s : all_space (leading_space s).
Proof.
  induction s as [|c s IH]; [constructor|]. simpl.
  destruct (is_space c) eqn:Hc; by constructor.
Qed.

Lemma lstrip_head s c s' : lstrip s = c :: s' -> is_space c = false.
Proof.
  induction s as [|x s IH]; [done|]. simpl.
  destruct (is_space x) eqn:Hx; [done|]. by intros [= <- _].
Qed.

Lemma lstrip_app_space a b : all_space a -> lstrip (a ++ b) = lstrip b.
Proof. induction 1 as [|c a Hc _ IH]; [done|]. simpl. by rewrite Hc. Qed.

Lemma lstrip_nonspace c s : is_space c = false -> lstrip (c :: s) = c :: s.
Proof. intros Hc. simpl. by rewrite Hc. Qed.

Lemma leading_space_app a c b :
  all_space a -> is_space c = false -> leading_space (a ++ c :: b) = a.
Proof.
  intros Ha Hc. induction Ha as [|x a Hx _ IH]; simpl.
  - by rewrite Hc.
  - by rewrite Hx, IH.
Qed.

Lemma lstrip_fixed_or_shorter s :
  lstrip s = s \/ (length (lstrip s) < length s)%nat.
Proof.
  pose proof (lstrip_split s) as Hs.
  destruct (leading_space s) as [|c l]; [by left|right].
  rewrite Hs at 2. rewrite length_app. simpl. lia.
Qed.

Lemma rstrip_split s : exists post, s = rstrip s ++ post /\ all_space post.
Proof.
  exists (reverse (leading_space (reverse s))). split.
  - unfold rstrip. rewrite <- reverse_app, <- lstrip_split.
    by rewrite reverse_involutive.
  - unfold all_space. rewrite Forall_reverse. apply leading_space_all.
Qed.

Lemma rstrip_app_space a b : all_space b -> rstrip (a ++ b) = rstrip a.
Proof.
  intros Hb. unfold rstrip. rewrite reverse_app, lstrip_app_space; [done|].
  unfold all_space. by rewrite Forall_reverse.
Qed.

Lemma rstrip_fixed_or_shorter s :
  rstrip s = s \/ (length (rstrip s) < length s)%nat.
Proof.
  unfold rstrip. destruct (lstrip_fixed_or_shorter (reverse s)) as [->|Hlt].
  - left. apply reverse_involutive.
  - right. by rewrite length_reverse in *.
Qed.

(** A text that [strip] leaves alone is left alone by both halves. *)
Lemma strip_fixed s : strip s = s -> lstrip s = s /\ rstrip s = s.
Proof.
  unfold strip. intros Hs.
  destruct (lstrip_fixed_or_shorter s) as [Hl|Hl].
  - rewrite Hl in Hs. by split.
  - exfalso. destruct (rstrip_fixed_or_shorter (lstrip s)) as [Hr|Hr].
    + rewrite Hr in Hs. rewrite Hs in Hl. lia.
    + rewrite Hs in Hr. lia.
Qed.

Lemma strip_decompose s id :
  strip s = id -> id ≠ [] ->
  exists post, s = leading_space s ++ id ++ post /\ all_space post.
Proof.
  intros Hs Hid. destruct (rstrip_split (lstrip s)) as (post & Hl & Hpost).
  exists post. split; [|done]. fold (strip s) in Hl. rewrite Hs in Hl.
  rewrite <- Hl. apply lstrip_split.
Qed.

Lemma strip_sandwich pre id post :
  all_space pre -> all_space post -> strip id = id -> id ≠ [] ->
  strip (pre ++ id ++ post) = id.
Proof.
  intros Hpre Hpost [Hl Hr]%strip_fixed Hid. unfold strip.
  rewrite lstrip_app_space by done.
  destruct id as [|c id']; [done|].
  rewrite <- app_comm_cons, lstrip_nonspace by (by eapply lstrip_head).
  rewrite app_comm_cons, rstrip_app_space by done. done.
Qed.

End strip_facts.

Section first_line_facts.

Implicit Types (s a b : str) (c : char).

Lemma head_splitlines s line0 more :
  splitlines s = line0 :: more -> line0 = upto_break s.
Proof.
  revert line0 more. induction s as [|c s IH]; intros line0 more; [done|].
  cbn [splitlines upto_break]. destruct (is_linebreak c).
  - by intros [= <- _].
  - destruct (splitlines s) as [|l ls] eqn:Hs.
    + intros [= <- _]. destruct s as [|c' s']; [done|].
      destruct (splitlines_nonempty (c' :: s')) as (? & ? & Heq); [done|].
      by rewrite Heq in Hs.
    + intros [= <- _]. by rewrite (IH l ls).
Qed.

Lemma head_readlines s line0 more :
  readlines s = line0 :: more -> line0 = upto_lf s.
Proof.
  revert line0 more. induction s as [|c s IH]; intros line0 more; [done|].
  cbn [readlines upto_lf]. destruct (c =? LF).
  - by intros [= <- _].
  - destruct (readlines s) as [|l ls] eqn:Hs.
    + intros [= <- _]. destruct s as [|c' s']; [done|]. simpl in Hs.
      destruct (c' =? LF); [done|]. by destruct (readlines s').
    + intros [= <- _]. by rewrite (IH l ls).
Qed.

Lemma upto_break_app a b :
  no_linebreak a -> upto_break (a ++ b) = a ++ upto_break b.
Proof.
  induction 1 as [|c a Hc _ IH]; [done|]. simpl. by rewrite Hc, IH.
Qed.

Lemma upto_break_prefix s : upto_break s `prefix_of` s.
Proof.
  induction s as [|c s IH]; [done|]. simpl.
  destruct (is_linebreak c); [apply prefix_nil|by apply prefix_cons].
Qed.

Lemma upto_break_app_break a b :
  ~ no_linebreak a -> upto_break (a ++ b) = upto_break a.
Proof.
  induction a as [|c a IH]; intros Hno.
  { destruct Hno. constructor. }
  simpl. destruct (is_linebreak c) eqn:Hc; [done|]. rewrite IH; [done|].
  intros Ha. apply Hno. by constructor.
Qed.

Lemma upto_lf_prefix s : upto_lf s `prefix_of` s.
Proof.
  induction s as [|c s IH]; [done|]. simpl.
  destruct (c =? LF); [|by apply prefix_cons].
  by exists s.
Qed.

Lemma upto_lf_whole s : LF ∉ upto_lf s -> upto_lf s = s.
Proof.
  induction s as [|c s IH]; [done|]. simpl.
  destruct (c =? LF) eqn:Hc.
  - apply N.eqb_eq in Hc as ->. intros []. by left.
  - intros Hn. rewrite IH; [done|]. intros ?. apply Hn. by right.
Qed.

Lemma upto_lf_inner s a b : upto_lf s = a ++ b -> b ≠ [] -> LF ∉ a.
Proof.
  revert a. induction s as [|c s IH]; intros a.
  { simpl. by intros [-> ->]%eq_sym%app_eq_nil. }
  simpl. destruct (c =? LF) eqn:Hc.
  - destruct a as [|x a]; [intros _ _; apply not_elem_of_nil|].
    intros [= _ Hnil] Hb. symmetry in Hnil.
    by apply app_eq_nil in Hnil as [_ ?].
  - destruct a as [|x a]; [intros _ _; apply not_elem_of_nil|].
    intros [= <- Hs] Hb [Hx|Hin]%elem_of_cons.
    + rewrite <- Hx in Hc. done.
    + by apply (IH a Hs Hb).
Qed.

End first_line_facts.

(** ** Paths *)

Section path_facts.

Implicit Types (root : Path) (n : str).

Lemma name_child root n : name (child root n) = n.
Proof. unfold name, child. simpl. by rewrite last_snoc. Qed.

Lemma parent_child root n : parent (child root n) = root.
Proof.
  unfold parent, child. simpl. rewrite removelast_last. by destruct root.
Qed.

Lemma relative_to_self root : relative_to root root = Some (mkPath [] []).
Proof.
  unfold relative_to. rewrite decide_True.
  - by rewrite drop_all.
  - split; [done|]. by rewrite firstn_all.
Qed.

Lemma relative_to_child root n :
  relative_to (child root n) root = Some (mkPath [] [n]).
Proof.
  unfold relative_to, child. simpl. rewrite decide_True.
  - by rewrite drop_app_length.
  - split; [done|]. by rewrite take_app_length.
Qed.

Lemma combine_identifier_top root n :
  combine_identifier (child root n) root = u "# " ++ n.
Proof.
  unfold combine_identifier.
  by rewrite parent_child, relative_to_self, name_child.
Qed.

End path_facts.

(** ** The file list *)

Section list_facts.

Lemma foldl_preserves {A B} (P : A -> Prop) (f : A -> B -> A) (l : list B) a :
  P a -> (forall a x, P a -> P (f a x)) -> P (foldl f a l).
Proof.
  intros Ha Hstep. revert a Ha.
  induction l as [|x l IH]; intros a Ha; simpl; [done|].
  apply IH. by apply Hstep.
Qed.

Lemma filter_all {A} (P : A -> Prop) `{forall x, Decision (P x)} (l : list A) :
  Forall P l -> filter P l = l.
Proof.
  induction 1 as [|x l Hx _ IH]; [done|].
  by rewrite filter_cons_True, IH.
Qed.

Lemma first_with_name_app_l n l1 l2 :
  n ∈ name <$> l1 ->
  first_with_name n (l1 ++ l2) = first_with_name n l1.
Proof.
  intros (q & Hn & Hq)%list_elem_of_fmap. unfold first_with_name.
  rewrite filter_app.
  assert (q ∈ filter (fun q => name q = n) l1) as Hin.
  { apply list_elem_of_filter. by split. }
  destruct (filter (fun q => name q = n) l1); [|done].
  by apply elem_of_nil in Hin.
Qed.

Lemma first_with_name_cons_ne n q l :
  name q ≠ n -> first_with_name n (q :: l) = first_with_name n l.
Proof.
  intros Hne. unfold first_with_name. by rewrite filter_cons_False.
Qed.

Lemma first_with_name_app_skip n l1 q l2 :
  n ∈ name <$> l1 \/ name q ≠ n ->
  first_with_name n (l1 ++ q :: l2) = first_with_name n (l1 ++ l2).
Proof.
  intros [Hin|Hne].
  - by rewrite !first_with_name_app_l.
  - unfold first_with_name. rewrite !filter_app.
    by rewrite filter_cons_False.
Qed.

(** The loop of [unique_by_name], from any point of its run. *)
Lemma unique_loop (l unique : list Path) (seen : gset str) :
  seen = list_to_set (name <$> unique) ->
  NoDup (name <$> unique) ->
  let result := (foldl unique_step (unique, seen) l).1 in
  NoDup (name <$> result)
  /\ forall n, first_with_name n result = first_with_name n (unique ++ l).
Proof.
  revert unique seen. induction l as [|fp l IH]; intros unique seen Hseen Hnd.
  { simpl. split; [done|]. intros n. by rewrite app_nil_r. }
  cbn zeta. change (foldl ?f ?a (fp :: l)) with (foldl f (f a fp) l).
  unfold unique_step at 2 4. cbn [fst snd].
  destruct (decide (name fp ∈ seen)) as [Hin|Hnin].
  - destruct (IH unique seen Hseen Hnd) as [IH1 IH2]. split; [done|].
    intros n. rewrite IH2. symmetry. apply first_with_name_app_skip.
    destruct (decide (name fp = n)) as [<-|]; [left|by right].
    subst seen. by apply elem_of_list_to_set in Hin.
  - destruct (IH (unique ++ [fp]) ({[name fp]} ∪ seen)) as [IH1 IH2].
    + subst seen. rewrite fmap_app, list_to_set_app_L. simpl.
      rewrite (right_id_L ∅ (∪)). apply (comm_L (∪)).
    + rewrite fmap_app. apply NoDup_app. split; [done|]. split.
      * intros n Hn [->|[]%elem_of_nil]%elem_of_cons. apply Hnin.
        subst seen. by apply elem_of_list_to_set.
      * apply NoDup_singleton.
    + split; [done|]. intros n. rewrite IH2. by rewrite <- app_assoc.
Qed.

Lemma NoDup_unique_by_name l : NoDup (name <$> unique_by_name l).
Proof.
  apply (unique_loop l [] ∅); [done|]. simpl. apply NoDup_nil_2.
Qed.

Lemma first_unique_by_name l n :
  first_with_name n (unique_by_name l) = first_with_name n l.
Proof.
  apply (unique_loop l [] ∅); [done|]. simpl. apply NoDup_nil_2.
Qed.

End list_facts.

Section adding_facts.

Implicit Types (s : State) (E : gset str).

Lemma adding_start s :
  NoDup (name <$> file_paths s) ->
  adding s s (list_to_set (name <$> file_paths s)).
Proof. intros Hnd. by repeat split. Qed.

Lemma adding_append s0 s E fp :
  adding s0 s E -> name fp ∉ E ->
  adding s0 (check_file (with_file_paths s (file_paths s ++ [fp])) fp)
         ({[name fp]} ∪ E).
Proof.
  intros (HE & Hnd & Hpre & Hv) Hnew. unfold adding. simpl.
  split; [|split; [|split]]; try done.
  - subst E. rewrite fmap_app, list_to_set_app_L. simpl.
    rewrite (right_id_L ∅ (∪)). apply (comm_L (∪)).
  - rewrite fmap_app. apply NoDup_app. split; [done|]. split.
    + intros n Hn [->|[]%elem_of_nil]%elem_of_cons. apply Hnew.
      subst E. by apply elem_of_list_to_set.
    + apply NoDup_singleton.
  - by apply prefix_app_r.
Qed.

Lemma add_loop s0 l s E added skipped :
  adding s0 s E ->
  let '(s', E', _, _) := foldl add_step (s, E, added, skipped) l in
  adding s0 s' E'.
Proof.
  intros Hs.
  apply (foldl_preserves
    (fun acc : State * gset str * list Path * list Path =>
       let '(s', E', _, _) := acc in adding s0 s' E')); [done|].
  intros [[[s' E'] a'] k'] fp Hacc. unfold add_step.
  destruct (decide (name fp ∈ E')); [done|]. by apply adding_append.
Qed.

Lemma tab_loop s0 l s E added any :
  adding s0 s E -> (added = [] -> s = s0) -> (any = false -> added = []) ->
  let '(s', E', added', any') := foldl tab_step (s, E, added, any) l in
  adding s0 s' E' /\ (added' = [] -> s' = s0)
  /\ (any' = false -> added' = []).
Proof.
  intros Hs Hadd Hany.
  apply (foldl_preserves
    (fun acc : State * gset str * list Path * bool =>
       let '(s', E', added', any') := acc in
       adding s0 s' E' /\ (added' = [] -> s' = s0)
       /\ (any' = false -> added' = []))); [done|].
  intros [[[s' E'] a'] k'] [b fp] (Hacc & Ha & Hk). unfold tab_step.
  destruct b; [|done].
  destruct (decide (name fp ∈ E')); [done|]. split; [|split; [|done]].
  - by apply adding_append.
  - by intros ?%app_eq_nil%proj2.
Qed.

End adding_facts.

Section consistent_facts.

Implicit Types (s : State) (L : list Path) (C : gset Path).

Lemma consistent_display s :
  NoDup (name <$> file_paths s) -> consistent (display_filenames s).
Proof. intros Hnd. by split. Qed.

Lemma consistent_show s e : consistent s -> consistent (show s e).
Proof. by intros [? ?]. Qed.

Lemma NoDup_paths L : NoDup (name <$> L) -> NoDup L.
Proof. apply NoDup_fmap_1. Qed.

Lemma rows_paths L C :
  ((fun fp => (bool_decide (fp ∈ C), fp)) <$> L).*2 = L.
Proof.
  rewrite <- list_fmap_compose. rewrite <- (list_fmap_id L) at 2.
  by apply list_fmap_ext.
Qed.

Lemma checked_rows L C :
  (filter (fun row : bool * Path => row.1 = true)
          ((fun fp => (bool_decide (fp ∈ C), fp)) <$> L)).*2
  = filter (fun fp => fp ∈ C) L.
Proof.
  induction L as [|fp L IH]; [done|]. rewrite fmap_cons.
  destruct (decide (fp ∈ C)) as [Hin|Hnin].
  - rewrite filter_cons_True by (simpl; by apply bool_decide_eq_true).
    rewrite (filter_cons_True (fun fp => fp ∈ C)) by done.
    by rewrite fmap_cons, IH.
  - rewrite filter_cons_False
      by (simpl; rewrite bool_decide_eq_false_2; done).
    by rewrite (filter_cons_False (fun fp => fp ∈ C)) by done.
Qed.

Lemma unchecked_rows L C :
  (filter (fun row : bool * Path => row.1 = false)
          ((fun fp => (bool_decide (fp ∈ C), fp)) <$> L)).*2
  = filter (fun fp => fp ∉ C) L.
Proof.
  induction L as [|fp L IH]; [done|]. rewrite fmap_cons.
  destruct (decide (fp ∈ C)) as [Hin|Hnin].
  - rewrite filter_cons_False
      by (simpl; rewrite bool_decide_eq_true_2; done).
    by rewrite (filter_cons_False (fun fp => fp ∉ C)) by (by intros []).
  - rewrite filter_cons_True by (simpl; by apply bool_decide_eq_false).
    rewrite (filter_cons_True (fun fp => fp ∉ C)) by done.
    by rewrite fmap_cons, IH.
Qed.

Lemma partition_Permutation L C :
  filter (fun fp => fp ∈ C) L ++ filter (fun fp => fp ∉ C) L ≡ₚ L.
Proof.
  induction L as [|fp L IH]; [done|].
  destruct (decide (fp ∈ C)) as [Hin|Hnin].
  - rewrite (filter_cons_True (fun fp => fp ∈ C)) by done.
    rewrite (filter_cons_False (fun fp => fp ∉ C)) by (by intros []).
    simpl. by rewrite IH.
  - rewrite (filter_cons_False (fun fp => fp ∈ C)) by done.
    rewrite (filter_cons_True (fun fp => fp ∉ C)) by done.
    rewrite <- Permutation_middle. by rewrite IH.
Qed.

Lemma NoDup_list_remove L p :
  NoDup (name <$> L) -> NoDup (name <$> list_remove p L).
Proof.
  induction L as [|q L IH]; [done|]. simpl.
  intros [Hq Hnd]%NoDup_cons. destruct (decide (p = q)); [done|].
  simpl. apply NoDup_cons. split; [|by apply IH].
  intros (r & Hr & Hin)%list_elem_of_fmap. apply Hq.
  apply list_elem_of_fmap. exists r. split; [done|].
  clear -Hin. induction L as [|t L IH]; simpl in *; [done|].
  destruct (decide (p = t)); [by right|].
  apply elem_of_cons in Hin as [->|Hin]; [left|right; by apply IH].
Qed.

End consistent_facts.

Section preservation.

Implicit Types (s : State) (p : Path).

Lemma same_list_consistent s s' :
  same_list s s' -> consistent s -> consistent s'.
Proof. intros (Hf & Hc & Hb) [? ?]. unfold consistent. by rewrite Hf, Hc, Hb. Qed.

Lemma same_list_save s p : same_list s (save_current_version s p).
Proof. unfold save_current_version. by destruct (read_text _ _). Qed.

Lemma same_list_copy s p : same_list s (copy_file_code s p).
Proof.
  unfold copy_file_code. destruct (read_text _ _); [|done].
  unfold save_current_version. simpl. by destruct (read_text _ _).
Qed.

Lemma same_list_paste s p : same_list s (paste_file_code s p).
Proof.
  unfold paste_file_code. destruct (clipboard s); [done|].
  destruct (splitlines _); [done|].
  destruct (content_to_write _ _ _ _ _ _); [|done].
  destruct (same_list_save s p) as (Hf & Hc & Hb).
  destruct (write_text _ _ _); unfold same_list; simpl; by rewrite Hf, Hc, Hb.
Qed.

Lemma same_list_revert s p : same_list s (revert_file_code s p).
Proof.
  unfold revert_file_code.
  destruct (_ ≫= _) as [[x r]|]; [|done]. by destruct (write_text _ _ _).
Qed.

Lemma same_list_shows s msgs : same_list s (foldl show s msgs).
Proof.
  apply (foldl_preserves (same_list s)); [done|].
  by intros s' e (Hf & Hc & Hb).
Qed.

Lemma same_list_copy_combined s : same_list s (copy_combined_code s).
Proof.
  unfold copy_combined_code. destruct (combine_code s) as [code msgs].
  destruct (same_list_shows s msgs) as (Hf & Hc & Hb).
  destruct (strip code); unfold same_list; simpl; by rewrite Hf, Hc, Hb.
Qed.

Lemma same_list_copy_paths s : same_list s (copy_all_file_paths s).
Proof. unfold copy_all_file_paths. by destruct (selected_files s). Qed.

Lemma consistent_filter_and_scan s walked :
  consistent (filter_and_scan_file_paths s walked).
Proof. apply consistent_display. simpl. apply NoDup_unique_by_name. Qed.

Lemma consistent_upload_replace s selection :
  consistent s -> consistent (upload_files_replace s selection).
Proof.
  intros Hs. destruct selection as [[|fp l]|]; [by apply consistent_show| |done].
  apply consistent_show, consistent_display. simpl.
  apply NoDup_unique_by_name.
Qed.

Lemma upload_files_add_grows s selection :
  consistent s ->
  let s' := upload_files_add s selection in
  consistent s'
  /\ file_paths s `prefix_of` file_paths s'
  /\ previous_versions s' = previous_versions s.
Proof.
  intros Hs. pose proof Hs as [Hnd Hcb].
  destruct selection as [[|fp l]|]; simpl.
  - split; [by apply consistent_show|done].
  - pose proof (add_loop s (filter (fun fp => is_candidate fp) (fp :: l)) s
                  _ [] [] (adding_start s Hnd)) as Hloop.
    unfold upload_files_add.
    destruct (foldl add_step _ _) as [[[s' E'] added] skipped].
    destruct Hloop as (_ & Hnd' & Hpre & Hv).
    pose proof (consistent_display s' Hnd') as Hc.
    destruct added, skipped; simpl; (split; [|done]); try done;
      repeat apply consistent_show; done.
  - done.
Qed.

Lemma add_from_tab_grows s dir_key :
  consistent s ->
  let s' := add_selected_files_from_tab s dir_key in
  consistent s'
  /\ file_paths s `prefix_of` file_paths s'
  /\ previous_versions s' = previous_versions s.
Proof.
  intros Hs. pose proof Hs as [Hnd Hcb]. cbn zeta.
  unfold add_selected_files_from_tab.
  destruct (tab_file_checkboxes s !! dir_key) as [rows|]; [|done].
  pose proof (tab_loop s rows s _ [] false (adding_start s Hnd)
                (fun _ => eq_refl) (fun _ => eq_refl)) as Hloop.
  destruct (foldl tab_step _ _) as [[[s' E'] added] any].
  destruct Hloop as ((_ & Hnd' & Hpre & Hv) & Hsame & Hany).
  destruct any; simpl.
  - destruct added as [|a added].
    + rewrite (Hsame eq_refl). split; [by apply consistent_show|done].
    + split; [|done]. by apply consistent_show, consistent_display.
  - rewrite (Hsame (Hany eq_refl)). split; [by apply consistent_show|done].
Qed.

End preservation.

Section more_preservation.

Implicit Types (s : State) (p : Path).

Lemma consistent_remove s p : consistent s -> consistent (remove_file s p).
Proof.
  intros [Hnd Hcb]. unfold remove_file.
  destruct (bool_decide (p ∈ file_paths s)); [|done].
  apply consistent_show, consistent_display. simpl.
  by apply NoDup_list_remove.
Qed.

Lemma consistent_checkbox s i state :
  consistent s -> consistent (checkbox_state_changed s i state).
Proof.
  intros [Hnd Hcb]. unfold checkbox_state_changed.
  destruct (checkboxes s !! i) as [[b fp]|] eqn:Hi; [|done].
  assert (file_paths s !! i = Some fp) as Hfp.
  { rewrite Hcb, list_lookup_fmap in Hi.
    destruct (file_paths s !! i); simpl in Hi; congruence. }
  pose proof (NoDup_paths _ Hnd) as Hnd'.
  assert (forall C' : gset Path,
    (forall q, q ≠ fp -> q ∈ C' <-> q ∈ checked_file_paths s) ->
    bool_decide (fp ∈ C') = state ->
    <[i := (state, fp)]> (checkboxes s) =
      (fun q => (bool_decide (q ∈ C'), q)) <$> file_paths s) as Hrows.
  { intros C' Hother Hthis. rewrite Hcb. apply list_eq. intros j.
    destruct (decide (i = j)) as [<-|Hne].
    - rewrite list_lookup_insert_eq
        by (rewrite length_fmap; by eapply lookup_lt_Some).
      by rewrite list_lookup_fmap, Hfp, <- Hthis.
    - rewrite list_lookup_insert_ne by done. rewrite !list_lookup_fmap.
      destruct (file_paths s !! j) as [q|] eqn:Hj; [|done]. simpl.
      do 2 f_equal. apply bool_decide_ext. symmetry. apply Hother.
      intros ->. apply Hne. by eapply NoDup_lookup. }
  destruct state; (split; [done|]); simpl; apply Hrows.
  - intros q Hq. rewrite elem_of_union, elem_of_singleton. tauto.
  - apply bool_decide_eq_true, elem_of_union_l. by apply elem_of_singleton.
  - intros q Hq. rewrite elem_of_difference, elem_of_singleton. tauto.
  - apply bool_decide_eq_false. rewrite elem_of_difference, elem_of_singleton.
    tauto.
Qed.

Lemma check_all s (rows : list (bool * Path)) :
  foldl (fun s row => check_file s row.2) s rows =
    with_checked s (list_to_set rows.*2 ∪ checked_file_paths s).
Proof.
  revert s. induction rows as [|row rows IH]; intros s; simpl.
  { rewrite (left_id_L ∅ (∪)). by destruct s. }
  rewrite IH. unfold check_file, with_checked. simpl. f_equal.
  apply set_eq. intros q.
  rewrite !elem_of_union, elem_of_singleton. tauto.
Qed.

Lemma uncheck_all s (rows : list (bool * Path)) :
  foldl (fun s row => uncheck_file s row.2) s rows =
    with_checked s (checked_file_paths s ∖ list_to_set rows.*2).
Proof.
  revert s. induction rows as [|row rows IH]; intros s; simpl.
  { rewrite difference_empty_L. by destruct s. }
  rewrite IH. unfold uncheck_file, with_checked. simpl. f_equal.
  apply set_eq. intros q.
  rewrite !elem_of_difference, elem_of_union, elem_of_singleton. tauto.
Qed.

Lemma consistent_select_all s : consistent s -> consistent (select_all_files s).
Proof.
  intros [Hnd Hcb]. unfold select_all_files. apply consistent_show.
  rewrite check_all. split; [done|]. simpl.
  rewrite Hcb at 1. rewrite <- list_fmap_compose.
  apply Forall_fmap_ext_1. apply Forall_forall. intros q Hq. simpl.
  f_equal. symmetry. apply bool_decide_eq_true.
  apply elem_of_union_l, elem_of_list_to_set.
  by rewrite Hcb, rows_paths.
Qed.

Lemma consistent_unselect_all s :
  consistent s -> consistent (unselect_all_files s).
Proof.
  intros [Hnd Hcb]. unfold unselect_all_files. apply consistent_show.
  rewrite uncheck_all. split; [done|]. simpl.
  rewrite Hcb at 1. rewrite <- list_fmap_compose.
  apply Forall_fmap_ext_1. apply Forall_forall. intros q Hq. simpl.
  f_equal. symmetry. apply bool_decide_eq_false.
  rewrite Hcb, rows_paths. intros [_ Hn]%elem_of_difference. apply Hn.
  by apply elem_of_list_to_set.
Qed.

Lemma move_checked_file_paths s :
  consistent s ->
  file_paths (move_checked_files_to_head s) =
    filter (fun fp => fp ∈ checked_file_paths s) (file_paths s)
    ++ filter (fun fp => fp ∉ checked_file_paths s) (file_paths s).
Proof.
  intros [Hnd Hcb]. unfold move_checked_files_to_head.
  rewrite Hcb, checked_rows, unchecked_rows.
  destruct (filter (fun fp => fp ∈ checked_file_paths s) (file_paths s))
    as [|q l] eqn:Hch; simpl; [|done].
  symmetry. apply filter_all. apply Forall_forall. intros q Hq Hin.
  assert (q ∈ filter (fun fp => fp ∈ checked_file_paths s) (file_paths s))
    as Hq' by (by apply list_elem_of_filter).
  rewrite Hch in Hq'. by apply elem_of_nil in Hq'.
Qed.

Lemma consistent_move s :
  consistent s -> consistent (move_checked_files_to_head s).
Proof.
  intros Hs. pose proof Hs as [Hnd Hcb]. unfold move_checked_files_to_head.
  rewrite Hcb, checked_rows, unchecked_rows.
  destruct (filter (fun fp => fp ∈ checked_file_paths s) (file_paths s))
    as [|q l] eqn:Hch; [by apply consistent_show|].
  apply consistent_show, consistent_display.
  cbn [file_paths with_file_paths]. rewrite <- Hch.
  by rewrite partition_Permutation.
Qed.

Lemma consistent_tabs s t : consistent s -> consistent (with_tabs s t).
Proof. by intros [? ?]. Qed.

Lemma consistent_step s a : consistent s -> consistent (step s a).
Proof.
  intros Hs. destruct a; simpl.
  - destruct chosen_dir; [|done]. apply consistent_show.
    apply consistent_filter_and_scan.
  - apply consistent_show, consistent_filter_and_scan.
  - by apply consistent_upload_replace.
  - by apply upload_files_add_grows.
  - by apply add_from_tab_grows.
  - unfold tab_checkbox_clicked. destruct (_ !! dir_key) as [rows|]; [|done].
    destruct (rows !! i) as [[b fp]|]; [|done]. by apply consistent_tabs.
  - unfold select_all_in_tab, set_all_in_tab.
    destruct (_ !! dir_key); [|done]. by apply consistent_tabs.
  - unfold deselect_all_in_tab, set_all_in_tab.
    destruct (_ !! dir_key); [|done]. by apply consistent_tabs.
  - by apply consistent_checkbox.
  - by apply consistent_select_all.
  - by apply consistent_unselect_all.
  - by apply consistent_remove.
  - exact (same_list_consistent _ _ (same_list_copy s file_path) Hs).
  - exact (same_list_consistent _ _ (same_list_paste s file_path) Hs).
  - exact (same_list_consistent _ _ (same_list_revert s file_path) Hs).
  - by apply consistent_move.
  - exact (same_list_consistent _ _ (same_list_copy_combined s) Hs).
  - exact (same_list_consistent _ _ (same_list_copy_paths s) Hs).
  - by destruct Hs.
  - by destruct Hs.
Qed.

Lemma reachable_consistent s : reachable s -> consistent s.
Proof.
  induction 1 as [stored_paths stored_dir clip d walked|s a _ IH].
  - apply consistent_filter_and_scan.
  - by apply consistent_step.
Qed.

End more_preservation.

Lemma name_collision_not_added (L L' : list Path) (fp : Path) :
  NoDup (name <$> L') -> L `prefix_of` L' ->
  name fp ∈ name <$> L -> fp ∉ L -> fp ∉ L'.
Proof.
  intros Hnd [k ->] (q & Hname & Hq)%list_elem_of_fmap Hnot Hin.
  assert (q ∈ L ++ k) as Hq' by (apply elem_of_app; by left).
  apply list_elem_of_lookup in Hin as [i Hi].
  apply list_elem_of_lookup in Hq' as [j Hj].
  assert (i = j) as ->.
  { apply (NoDup_lookup _ i j (name fp) Hnd).
    - by rewrite list_lookup_fmap, Hi.
    - by rewrite list_lookup_fmap, Hj, Hname. }
  rewrite Hi in Hj. injection Hj as ->. done.
Qed.

Section partition_facts.

Context (C : gset Path).
Implicit Types (L : list Path).

Lemma filter_checked_twice L :
  filter (fun fp => fp ∈ C) (filter (fun fp => fp ∈ C) L)
  = filter (fun fp => fp ∈ C) L.
Proof.
  apply filter_all, Forall_forall. by intros q [? _]%list_elem_of_filter.
Qed.

Lemma filter_unchecked_twice L :
  filter (fun fp => fp ∉ C) (filter (fun fp => fp ∉ C) L)
  = filter (fun fp => fp ∉ C) L.
Proof.
  apply filter_all, Forall_forall. by intros q [? _]%list_elem_of_filter.
Qed.

Lemma filter_none (P : Path -> Prop) `{forall x, Decision (P x)} L :
  Forall (fun q => ~ P q) L -> filter P L = [].
Proof.
  induction 1 as [|x l Hx _ IH]; [done|]. by rewrite filter_cons_False.
Qed.

Lemma filter_checked_unchecked L :
  filter (fun fp => fp ∈ C) (filter (fun fp => fp ∉ C) L) = [].
Proof.
  apply filter_none, Forall_forall. by intros q [? _]%list_elem_of_filter.
Qed.

Lemma filter_unchecked_checked L :
  filter (fun fp => fp ∉ C) (filter (fun fp => fp ∈ C) L) = [].
Proof.
  apply filter_none, Forall_forall.
  intros q [? _]%list_elem_of_filter Hn. by apply Hn.
Qed.

Lemma partition_twice L :
  let L' := filter (fun fp => fp ∈ C) L ++ filter (fun fp => fp ∉ C) L in
  filter (fun fp => fp ∈ C) L' ++ filter (fun fp => fp ∉ C) L' = L'.
Proof.
  cbn zeta. rewrite !filter_app.
  rewrite filter_checked_twice, filter_unchecked_twice.
  rewrite filter_checked_unchecked, filter_unchecked_checked.
  by rewrite app_nil_r.
Qed.

End partition_facts.

Lemma move_checked_keeps_checked s :
  checked_file_paths (move_checked_files_to_head s) = checked_file_paths s.
Proof.
  unfold move_checked_files_to_head. by destruct ((filter _ _).*2).
Qed.

Lemma move_checked_file_paths_at s (C : gset Path) :
  consistent s -> checked_file_paths s = C ->
  file_paths (move_checked_files_to_head s) =
    filter (fun fp => fp ∈ C) (file_paths s)
    ++ filter (fun fp => fp ∉ C) (file_paths s).
Proof. intros Hs <-. by apply move_checked_file_paths. Qed.

Lemma checkboxes_at s (C : gset Path) :
  consistent s -> checked_file_paths s = C ->
  checkboxes s = (fun fp => (bool_decide (fp ∈ C), fp)) <$> file_paths s.
Proof. by intros [_ Hcb] <-. Qed.

Lemma ex_session_reachable : reachable ex_session.
Proof.
  exact (reachable_step _ (UploadFilesReplace (Some [ex_foo; ex_bar]))
           (reachable_init [] ex_root [] ex_disk [ex_foo; ex_bar])).
Defined.

Lemma ex_unchecked_reachable : reachable ex_unchecked.
Proof.
  exact (reachable_step _ (CheckboxClicked 0 false) ex_session_reachable).
Defined.

(** ** Version history *)

Section history_facts.

Implicit Types (s : State) (p : Path) (h : list str).

Lemma list_pop_nil : list_pop [] = None.
Proof. done. Qed.

Lemma list_pop_snoc h x : list_pop (h ++ [x]) = Some (x, h).
Proof.
  unfold list_pop. rewrite reverse_snoc. by rewrite reverse_involutive.
Qed.

Lemma pop_history s p :
  previous_versions s !! p ≫= list_pop = list_pop (history s p).
Proof. unfold history. by destruct (previous_versions s !! p). Qed.


Lemma history_push s p c :
  history (with_versions s (push_version (previous_versions s) p c)) p =
    let h := history s p ++ [c] in
    if decide (5 < length h)%nat then drop 1 h else h.
Proof.
  unfold history, push_version. simpl. by rewrite lookup_insert_eq.
Qed.

Lemma history_push_ne s p q c :
  p ≠ q ->
  history (with_versions s (push_version (previous_versions s) p c)) q =
    history s q.
Proof.
  intros Hne. unfold history, push_version. simpl.
  by rewrite lookup_insert_ne.
Qed.


Lemma history_revert s p :
  history (revert_file_code s p) p = removelast (history s p).
Proof.
  unfold revert_file_code. rewrite pop_history.
  remember (history s p) as h eqn:Hh.
  destruct h as [|x h _] using rev_ind; [done|].
  rewrite list_pop_snoc, removelast_last. unfold write_text. simpl.
  destruct (decide (p ∈ locked (fs s))); unfold history; simpl;
    by rewrite lookup_insert_eq.
Qed.



End history_facts.



Section versions_frame.

Implicit Types (s : State) (p : Path).

Lemma versions_add_loop s0 l acc :
  previous_versions acc.1.1.1 = previous_versions s0 ->
  previous_versions (foldl add_step acc l).1.1.1 = previous_versions s0.
Proof.
  intros Hacc.
  apply (foldl_preserves
    (fun acc : State * gset str * list Path * list Path =>
       previous_versions acc.1.1.1 = previous_versions s0)); [done|].
  intros [[[s' E'] a'] k'] fp Hs'. unfold add_step.
  by destruct (decide (name fp ∈ E')).
Qed.

Lemma versions_tab_loop s0 l acc :
  previous_versions acc.1.1.1 = previous_versions s0 ->
  previous_versions (foldl tab_step acc l).1.1.1 = previous_versions s0.
Proof.
  intros Hacc.
  apply (foldl_preserves
    (fun acc : State * gset str * list Path * bool =>
       previous_versions acc.1.1.1 = previous_versions s0)); [done|].
  intros [[[s' E'] a'] k'] [b fp] Hs'. unfold tab_step.
  destruct b; [|done]. by destruct (decide (name fp ∈ E')).
Qed.

Lemma versions_shows s msgs :
  previous_versions (foldl show s msgs) = previous_versions s.
Proof.
  by apply (foldl_preserves
    (fun s' => previous_versions s' = previous_versions s)).
Qed.

Lemma versions_upload_add s selection :
  previous_versions (upload_files_add s selection) = previous_versions s.
Proof.
  destruct selection as [[|fp l]|]; [done| |done]. unfold upload_files_add.
  pose proof (versions_add_loop s
    (filter (fun fp => is_candidate fp) (fp :: l))
    (s, list_to_set (name <$> file_paths s), [], []) eq_refl) as Hloop.
  destruct (foldl add_step _ _) as [[[s' E'] added] skipped].
  by destruct added, skipped.
Qed.

Lemma versions_add_from_tab s dir_key :
  previous_versions (add_selected_files_from_tab s dir_key)
  = previous_versions s.
Proof.
  unfold add_selected_files_from_tab.
  destruct (tab_file_checkboxes s !! dir_key) as [rows|]; [|done].
  pose proof (versions_tab_loop s rows
    (s, list_to_set (name <$> file_paths s), [], false) eq_refl) as Hloop.
  destruct (foldl tab_step _ _) as [[[s' E'] added] any].
  by destruct any, added.
Qed.

(** Every action but copy, paste and revert leaves [previous_versions]
    as it is. *)
Lemma versions_step s a :
  (forall p, a ≠ CopyFileCode p) -> (forall p, a ≠ PasteFileCode p) ->
  (forall p, a ≠ RevertFileCode p) ->
  previous_versions (step s a) = previous_versions s.
Proof.
  intros Hc Hp Hr. destruct a; simpl.
  - by destruct chosen_dir.
  - done.
  - by destruct selection as [[|fp l]|].
  - apply versions_upload_add.
  - apply versions_add_from_tab.
  - unfold tab_checkbox_clicked. destruct (_ !! dir_key) as [rows|]; [|done].
    by destruct (rows !! i) as [[b fp]|].
  - unfold select_all_in_tab, set_all_in_tab. by destruct (_ !! dir_key).
  - unfold deselect_all_in_tab, set_all_in_tab. by destruct (_ !! dir_key).
  - unfold checkbox_state_changed.
    destruct (checkboxes s !! i) as [[b fp]|]; [|done]. by destruct state.
  - unfold select_all_files. by rewrite check_all.
  - unfold unselect_all_files. by rewrite uncheck_all.
  - unfold remove_file. by destruct (bool_decide _).
  - by destruct (Hc file_path).
  - by destruct (Hp file_path).
  - by destruct (Hr file_path).
  - unfold move_checked_files_to_head. by destruct ((filter _ _).*2).
  - unfold copy_combined_code. destruct (combine_code s) as [code msgs].
    pose proof (versions_shows s msgs). by destruct (strip code).
  - unfold copy_all_file_paths. by destruct (selected_files s).
  - done.
  - done.
Qed.

Lemma history_revert_other s p q :
  p ≠ q -> history (revert_file_code s p) q = history s q.
Proof.
  intros Hne. unfold revert_file_code.
  destruct (_ ≫= _) as [[x r]|]; [|done].
  destruct (write_text _ _ _); unfold history; simpl;
    by rewrite lookup_insert_ne.
Qed.

Lemma history_save s p text :
  read_text (fs s) p = Ok text ->
  history (save_current_version s p) p =
    let h := history s p ++ [text] in
    if decide (5 < length h)%nat then drop 1 h else h.
Proof.
  intros Hr. unfold save_current_version. rewrite Hr. apply history_push.
Qed.

End versions_frame.

Section history_bound.

Implicit Types (s : State) (p q : Path).








End history_bound.

(** ** Paste, copy and combination *)

Lemma paste_file_code_ok s file_path line0 more content :
  splitlines (clipboard s) = line0 :: more ->
  content_to_write (fs s) (selected_directory s) file_path (clipboard s)
                   line0 more = Ok content ->
  file_path ∉ locked (fs s) ->
  paste_file_code s file_path =
    show (with_fs (save_current_version s file_path)
            (mkDisk (<[file_path := TextFile content]> (files (fs s)))
                    (locked (fs s))))
         (StatusBar (PastedContent file_path)).
Proof.
  intros Hl Hc Hw. unfold paste_file_code.
  destruct (clipboard s) as [|c0 cl] eqn:Hclip; [done|].
  rewrite Hl, Hc.
  assert (fs (save_current_version s file_path) = fs s) as Hfs.
  { unfold save_current_version. by destruct (read_text _ _). }
  rewrite Hfs. unfold write_text. by rewrite decide_False.
Qed.

Lemma written_content s file_path line0 more content :
  splitlines (clipboard s) = line0 :: more ->
  content_to_write (fs s) (selected_directory s) file_path (clipboard s)
                   line0 more = Ok content ->
  file_path ∉ locked (fs s) ->
  written s file_path = Some (TextFile content).
Proof.
  intros Hl Hc Hw. unfold written.
  rewrite (paste_file_code_ok s file_path line0 more content Hl Hc Hw).
  simpl. by rewrite lookup_insert_eq.
Qed.

Lemma content_verbatim d script_dir file_path clipboard_text line0 more :
  strip line0 = single_identifier file_path script_dir ->
  content_to_write d script_dir file_path clipboard_text line0 more
  = Ok clipboard_text.
Proof. intros Heq. unfold content_to_write. by rewrite decide_True. Qed.

Lemma content_joined d script_dir file_path clipboard_text line0 more text :
  let expected := single_identifier file_path script_dir in
  strip line0 ≠ expected ->
  read_text d file_path = Ok text ->
  stripped_first_line text = Some expected ->
  content_to_write d script_dir file_path clipboard_text line0 more
  = Ok (expected ++ [LF] ++ join_lf (line0 :: more)).
Proof.
  intros expected Hmis Hread Hcur. unfold content_to_write.
  rewrite decide_False by done.
  assert (exists_ d file_path = true) as ->.
  { unfold exists_, read_text in *. apply bool_decide_eq_true.
    destruct (files d !! file_path); [eauto|done]. }
  rewrite Hread. unfold stripped_first_line in Hcur.
  destruct (splitlines text) as [|e0 es]; [done|].
  simpl in Hcur. injection Hcur as Hcur.
  rewrite decide_True by done. by rewrite Hcur.
Qed.

Lemma content_prefixed d script_dir file_path clipboard_text line0 more :
  let expected := single_identifier file_path script_dir in
  strip line0 ≠ expected ->
  (exists_ d file_path = false
   \/ exists text, read_text d file_path = Ok text
                   /\ stripped_first_line text ≠ Some expected) ->
  content_to_write d script_dir file_path clipboard_text line0 more
  = Ok (expected ++ [LF] ++ clipboard_text).
Proof.
  intros expected Hmis Hcase. unfold content_to_write.
  rewrite decide_False by done.
  destruct Hcase as [Habs|(text & Hread & Hcur)].
  - by rewrite Habs.
  - destruct (exists_ d file_path); [|done].
    rewrite Hread. unfold stripped_first_line in Hcur.
    destruct (splitlines text) as [|e0 es]; [done|].
    rewrite decide_False; [done|]. intros Heq. apply Hcur. simpl.
    by rewrite Heq.
Qed.

Section snapshot_failure.

Implicit Types (s : State) (p : Path).

Lemma save_current_version_fails s p e :
  read_text (fs s) p = Raise e ->
  save_current_version s p = show s (CriticalBox (FailedToRead p)).
Proof. intros Hr. unfold save_current_version. by rewrite Hr. Qed.

Lemma paste_without_snapshot s p e line0 more content :
  read_text (fs s) p = Raise e ->
  splitlines (clipboard s) = line0 :: more ->
  content_to_write (fs s) (selected_directory s) p (clipboard s) line0 more
    = Ok content ->
  p ∉ locked (fs s) ->
  let s' := paste_file_code s p in
  previous_versions s' = previous_versions s
  /\ shown s' = shown s ++ [CriticalBox (FailedToRead p);
                            StatusBar (PastedContent p)]
  /\ files (fs s') !! p = Some (TextFile content).
Proof.
  intros Hr Hl Hc Hw s'. unfold s'.
  rewrite (paste_file_code_ok s p line0 more content Hl Hc Hw).
  rewrite (save_current_version_fails s p e Hr). simpl.
  rewrite lookup_insert_eq. by rewrite <- app_assoc.
Qed.

End snapshot_failure.

Lemma content_to_write_readable d script_dir p clipboard_text line0 more text :
  read_text d p = Ok text ->
  exists content,
    content_to_write d script_dir p clipboard_text line0 more = Ok content.
Proof.
  intros Hr. unfold content_to_write. rewrite Hr.
  destruct (decide _); [eauto|]. destruct (exists_ d p); [|eauto].
  destruct (splitlines text); [eauto|]. destruct (decide _); eauto.
Qed.

Lemma history_paste s p text :
  clipboard s ≠ [] ->
  read_text (fs s) p = Ok text ->
  history (paste_file_code s p) p =
    let h := history s p ++ [text] in
    if decide (5 < length h)%nat then drop 1 h else h.
Proof.
  intros Hne Hr.
  destruct (splitlines_nonempty _ Hne) as (line0 & more & Hl).
  destruct (content_to_write_readable (fs s) (selected_directory s) p
              (clipboard s) line0 more text Hr) as [content Hc].
  unfold paste_file_code. destruct (clipboard s) as [|c0 cl]; [done|].
  rewrite Hl, Hc. pose proof (history_save s p text Hr) as Hs.
  cbn zeta in *. rewrite <- Hs. by destruct (write_text _ _ _).
Qed.

Lemma combine_step_text d script_dir acc msgs fp raw :
  files d !! fp = Some (TextFile raw) ->
  combine_step d script_dir (acc, msgs) fp =
    (acc ++ ensure_identifier (combine_identifier fp script_dir)
                              (universal_newlines raw) ++ [LF; LF], msgs).
Proof.
  intros Hf. unfold combine_step, exists_, read_text. rewrite Hf.
  rewrite bool_decide_eq_true_2 by eauto.
  cbn [negb]. f_equal. f_equal. f_equal. unfold ensure_identifier.
  destruct (readlines (universal_newlines raw)) as [|line0 ls] eqn:Hr.
  - apply (f_equal join_empty) in Hr. rewrite join_empty_readlines in Hr.
    rewrite Hr. simpl. by rewrite app_nil_r.
  - rewrite <- (join_empty_readlines (universal_newlines raw)), Hr.
    destruct (decide (strip line0 = _)).
    + by rewrite decide_False by (by intros []).
    + rewrite decide_True by done. unfold join_empty. simpl.
      by rewrite <- !app_assoc.
Qed.

Lemma combine_step_part d script_dir acc msgs l :
  (foldl (combine_step d script_dir) (acc, msgs) l).1 =
    acc ++ mjoin (combined_part d script_dir <$> l).
Proof.
  revert acc msgs. induction l as [|fp l IH]; intros acc msgs.
  { simpl. by rewrite app_nil_r. }
  assert (exists msgs',
    combine_step d script_dir (acc, msgs) fp =
      (acc ++ combined_part d script_dir fp, msgs')) as [msgs' Hstep].
  { destruct (files d !! fp) as [[raw| |]|] eqn:Hf.
    - exists msgs. rewrite (combine_step_text _ _ _ _ _ raw) by done.
      unfold combined_part, read_text. by rewrite Hf.
    - unfold combine_step, combined_part, exists_, read_text. rewrite Hf.
      rewrite bool_decide_eq_true_2 by eauto. cbn [negb]. eexists.
      by rewrite app_nil_r.
    - unfold combine_step, combined_part, exists_, read_text. rewrite Hf.
      rewrite bool_decide_eq_true_2 by eauto. cbn [negb]. eexists.
      by rewrite app_nil_r.
    - unfold combine_step, combined_part, exists_, read_text. rewrite Hf.
      rewrite bool_decide_eq_false_2 by (by intros [? ?]). cbn [negb].
      eexists. by rewrite app_nil_r. }
  change (foldl ?f ?a (fp :: l)) with (foldl f (f a fp) l).
  rewrite Hstep, fmap_cons. simpl mjoin. rewrite IH. by rewrite <- app_assoc.
Qed.

Section round_trip.

Implicit Types (s : State) (p : Path) (text identifier : str).

(** The text [copy_file_code] puts on the clipboard for a file that
    reads as [text]. *)
Lemma copy_file_code_clipboard s p text :
  read_text (fs s) p = Ok text ->
  let s' := copy_file_code s p in
  let identifier := single_identifier p (selected_directory s) in
  fs s' = fs s /\ selected_directory s' = selected_directory s
  /\ clipboard s' =
       match readlines text with
       | line0 :: _ =>
           if decide (strip line0 ≠ identifier)
           then identifier ++ [LF] ++ text else text
       | [] => identifier ++ [LF]
       end.
Proof.
  intros Hr. cbn zeta. unfold copy_file_code. rewrite Hr. cbn zeta.
  unfold save_current_version. simpl. rewrite Hr. simpl.
  by rewrite join_empty_readlines.
Qed.

Lemma first_line_after_identifier identifier text :
  no_linebreak identifier -> strip identifier = identifier ->
  stripped_first_line (identifier ++ [LF] ++ text) = Some identifier.
Proof.
  intros Hid Hstrip. unfold stripped_first_line.
  destruct (splitlines_nonempty (identifier ++ [LF] ++ text))
    as (line0 & more & Hl).
  { intros [_ ?]%app_eq_nil. done. }
  rewrite Hl. simpl. f_equal.
  rewrite (head_splitlines _ _ _ Hl), upto_break_app by done.
  simpl. by rewrite app_nil_r.
Qed.

Lemma first_line_with_identifier identifier text line0 more :
  no_linebreak identifier -> strip identifier = identifier ->
  identifier ≠ [] ->
  Forall (fun c => is_linebreak c = true -> c = LF) (leading_space text) ->
  readlines text = line0 :: more ->
  strip line0 = identifier ->
  stripped_first_line text = Some identifier.
Proof.
  intros Hid Hstrip Hne Htext Hread Hline.
  apply head_readlines in Hread as ->.
  destruct (strip_decompose _ _ Hline Hne) as (post & Hl0 & Hpost).
  set (pre := leading_space (upto_lf text)) in *.
  destruct (upto_lf_prefix text) as [rest Htx].
  assert (all_space pre) as Hpre by apply leading_space_all.
  destruct identifier as [|c1 id'] eqn:Hidn; [done|]. rewrite <- Hidn in *.
  assert (is_space c1 = false) as Hc1.
  { apply strip_fixed in Hstrip as [Hl _]. rewrite Hidn in Hl.
    by eapply lstrip_head. }
  assert (text = pre ++ identifier ++ post ++ rest) as Htext'.
  { rewrite Htx at 1. rewrite Hl0. by rewrite <- !app_assoc. }
  assert (no_linebreak pre) as Hpre_nb.
  { assert (leading_space text = pre) as Hls.
    { rewrite Htext', Hidn, <- !app_comm_cons. by apply leading_space_app. }
    rewrite Hls in Htext. unfold no_linebreak. apply Forall_forall.
    intros c Hc. destruct (is_linebreak c) eqn:Hlb; [|done]. exfalso.
    rewrite Forall_forall in Htext. rewrite (Htext c Hc Hlb) in Hc.
    revert Hc. apply (upto_lf_inner text pre (identifier ++ post)); [done|].
    rewrite Hidn. done. }
  assert (all_space (upto_break (post ++ rest))) as Htail.
  { assert (forall a, a `prefix_of` post -> all_space a) as Hsub.
    { intros a [k ->]. by apply Forall_app in Hpost as [? _]. }
    destruct (decide (Forall (fun c => is_linebreak c = false) post))
      as [Hnb|Hb].
    - assert (rest = []) as ->.
      { assert (upto_lf text = text) as Hwhole.
        { apply upto_lf_whole. rewrite Hl0. intros Hin.
          assert (no_linebreak (pre ++ identifier ++ post)) as Hall.
          { by repeat apply Forall_app_2. }
          unfold no_linebreak in Hall. rewrite Forall_forall in Hall.
          by apply Hall in Hin. }
        rewrite Hwhole in Htx. symmetry in Htx.
        apply (app_inv_head text). by rewrite Htx, app_nil_r. }
      rewrite app_nil_r. apply Hsub, upto_break_prefix.
    - rewrite upto_break_app_break by done.
      apply Hsub, upto_break_prefix. }
  unfold stripped_first_line.
  destruct (splitlines_nonempty text) as (l0 & ls & Hsl).
  { rewrite Htext', Hidn. by intros [_ ?]%app_eq_nil. }
  rewrite Hsl. simpl. f_equal. rewrite (head_splitlines _ _ _ Hsl).
  rewrite Htext', !upto_break_app by done.
  by apply strip_sandwich.
Qed.

(** Where the first line that [copy_file_code] looks at and the first
    line that [paste_file_code] looks at agree, pasting back what was
    copied writes the copied text: the identifier is a single line
    without whitespace around it, and no line-break character other than
    "\n" stands in the whitespace the file starts with. *)
Lemma copy_paste_round_trip s p text :
  let identifier := single_identifier p (selected_directory s) in
  read_text (fs s) p = Ok text ->
  no_linebreak identifier -> strip identifier = identifier ->
  Forall (fun c => is_linebreak c = true -> c = LF) (leading_space text) ->
  p ∉ locked (fs s) ->
  written (copy_file_code s p) p
  = Some (TextFile (clipboard (copy_file_code s p))).
Proof.
  intros identifier Hr Hid Hstrip Htext Hw.
  destruct (copy_file_code_clipboard s p text Hr) as (Hfs & Hdir & Hclip).
  fold identifier in Hclip.
  assert (identifier ≠ []) as Hne by done.
  assert (stripped_first_line (clipboard (copy_file_code s p))
          = Some identifier) as Hfirst.
  { rewrite Hclip. destruct (readlines text) as [|line0 more] eqn:Hrl.
    - rewrite <- (app_nil_r [LF]).
      by apply first_line_after_identifier.
    - destruct (decide (strip line0 ≠ identifier)) as [Hmis|Hhas].
      + by apply first_line_after_identifier.
      + apply dec_stable in Hhas.
        by apply (first_line_with_identifier identifier text line0 more). }
  unfold stripped_first_line in Hfirst.
  destruct (splitlines (clipboard (copy_file_code s p)))
    as [|line0 more] eqn:Hl; [done|].
  simpl in Hfirst. injection Hfirst as Hfirst.
  apply (written_content _ p line0 more); [done| |by rewrite Hfs].
  apply content_verbatim. by rewrite Hdir.
Qed.

End round_trip.

Lemma ex_two_newlines_case : keeps_existing_identifier ex_two_newlines ex_foo.
Proof.
  split; [vm_compute; discriminate|]. split; [vm_compute; discriminate|].
  exists (u "# foo.py" ++ [LF] ++ u "print(1)" ++ [LF]).
  split; vm_compute; reflexivity.
Defined.

(** * The properties of the specification *)

(** C1: a non-empty clipboard text pasted to a writable target is written
    verbatim when its first line, stripped, is the expected identifier;
    else as the identifier, a newline and the clipboard's lines joined by
    newlines when the target's current first line, stripped, is the
    identifier; else (target absent, empty or with another first line) as
    the identifier, a newline and the raw clipboard text. *)
Theorem paste_reconciliation_cases (s : State) (file_path : Path) :
  let expected := single_identifier file_path (selected_directory s) in
  let clip := clipboard s in
  clip ≠ [] ->
  file_path ∉ locked (fs s) ->
  (stripped_first_line clip = Some expected ->
     written s file_path = Some (TextFile clip))
  /\ (forall text,
        stripped_first_line clip ≠ Some expected ->
        read_text (fs s) file_path = Ok text ->
        stripped_first_line text = Some expected ->
        written s file_path =
          Some (TextFile (expected ++ [LF] ++ join_lf (splitlines clip))))
  /\ (stripped_first_line clip ≠ Some expected ->
      (exists_ (fs s) file_path = false
       \/ exists text, read_text (fs s) file_path = Ok text
                       /\ stripped_first_line text ≠ Some expected) ->
      written s file_path = Some (TextFile (expected ++ [LF] ++ clip))).
Proof.
  intros expected clip Hne Hw.
  destruct (splitlines_nonempty clip Hne) as (line0 & more & Hl).
  unfold stripped_first_line at 1 2 4. rewrite Hl. simpl.
  subst expected clip. split; [|split].
  - intros [= Heq]. apply (written_content s file_path line0 more); [done| |done].
    by apply content_verbatim.
  - intros text Hmis Hread Hcur.
    apply (written_content s file_path line0 more); [done| |done].
    apply (content_joined _ _ _ _ _ _ text); [congruence|done..].
  - intros Hmis Hcase.
    apply (written_content s file_path line0 more); [done| |done].
    apply content_prefixed; [congruence|done].
Qed.

Lemma paste_reconciliation_cases_witness :
  written (with_clipboard ex_session (u "print(3)" ++ [LF])) ex_foo =
    Some (TextFile (u "# foo.py" ++ [LF] ++ u "print(3)" ++ [LF])).
Proof.
  refine (proj2 (proj2 (paste_reconciliation_cases
            (with_clipboard ex_session (u "print(3)" ++ [LF])) ex_foo _ _)) _ _).
  - vm_compute. discriminate.
  - apply (bool_decide_unpack _). vm_compute. exact I.
  - vm_compute. discriminate.
  - right. exists (u "print(1)" ++ [LF]). split.
    + vm_compute. reflexivity.
    + vm_compute. discriminate.
Defined.

(** C2: combining the checked files foo.py (under the root, content
    "print(1)\n") and sub/bar.py (content "print(2)\n") returns
    "# foo.py\nprint(1)\n\n\n# sub/bar.py\nprint(2)\n\n\n"; in general the
    combined text is, for the checked files in list order, each file's
    header-ensured content followed by the separator "\n\n", the
    identifier being the bare file name for a file directly under the
    root, and also for a file whose directory, written relative to the
    root, reads "(top-level)" (or "." or nothing), and directory, slash
    and file name for a file in any other directory below the root. *)
Theorem combine_output_format :
  (forall s,
     let root := selected_directory s in
     let foo := child root (u "foo.py") in
     let bar := child (child root (u "sub")) (u "bar.py") in
     selected_files s = [foo; bar] ->
     files (fs s) !! foo = Some (TextFile (u "print(1)" ++ [LF])) ->
     files (fs s) !! bar = Some (TextFile (u "print(2)" ++ [LF])) ->
     combine_code s =
       (u "# foo.py" ++ [LF] ++ u "print(1)" ++ [LF; LF; LF]
          ++ u "# sub/bar.py" ++ [LF] ++ u "print(2)" ++ [LF; LF; LF], []))
  /\ (forall s,
        (combine_code s).1 =
          mjoin (combined_part (fs s) (selected_directory s)
                   <$> selected_files s))
  /\ (forall root n, combine_identifier (child root n) root = u "# " ++ n)
  /\ (forall file_path root rel,
        relative_to (parent file_path) root = Some rel ->
        as_posix rel ∉ [[]; u "."; u "(top-level)"] ->
        combine_identifier file_path root =
          u "# " ++ as_posix rel ++ u "/" ++ name file_path)
  /\ (forall file_path root rel,
        relative_to (parent file_path) root = Some rel ->
        as_posix rel ∈ [[]; u "."; u "(top-level)"] ->
        combine_identifier file_path root = u "# " ++ name file_path).
Proof.
  split; [|split; [|split; [|split]]].
  - intros s root foo bar Hsel Hfoo Hbar. unfold combine_code.
    rewrite Hsel. fold root.
    change (foldl ?f ?a [foo; bar]) with (f (f a foo) bar).
    rewrite (combine_step_text _ _ _ _ _ _ Hfoo).
    rewrite (combine_step_text _ _ _ _ _ _ Hbar).
    unfold foo at 1. rewrite combine_identifier_top.
    assert (combine_identifier bar root = u "# sub/bar.py") as ->.
    { unfold combine_identifier, bar.
      by rewrite parent_child, relative_to_child, name_child. }
    reflexivity.
  - intros s. unfold combine_code. by rewrite combine_step_part.
  - apply combine_identifier_top.
  - intros file_path root rel Hrel Hdir. unfold combine_identifier.
    rewrite Hrel. by rewrite bool_decide_eq_false_2.
  - intros file_path root rel Hrel Hdir. unfold combine_identifier.
    rewrite Hrel. by rewrite bool_decide_eq_true_2.
Qed.

Lemma combine_output_format_witness :
  combine_code ex_session =
    (u "# foo.py" ++ [LF] ++ u "print(1)" ++ [LF; LF; LF]
       ++ u "# sub/bar.py" ++ [LF] ++ u "print(2)" ++ [LF; LF; LF], []).
Proof.
  apply (proj1 combine_output_format ex_session); vm_compute; reflexivity.
Defined.

(** C2 as stated fails for a file in a directory called "(top-level)":
    the directory is not the root, yet the identifier is the bare file
    name, not directory, slash and file name. *)
Lemma combine_top_level_directory_bare_name :
  parent ex_top ≠ selected_directory ex_top_session
  /\ selected_files ex_top_session = [ex_top]
  /\ relative_or_absolute ex_top (selected_directory ex_top_session)
     = u "(top-level)/x.py"
  /\ combine_identifier ex_top (selected_directory ex_top_session)
     = u "# x.py"
  /\ combine_code ex_top_session
     = (u "# x.py" ++ [LF] ++ u "print(1)" ++ [LF; LF; LF], []).
Proof.
  split; [by intros [=]|]. repeat split; vm_compute; reflexivity.
Qed.

(** C3 at a file that starts with a form feed before its identifier
    line: [copy_file_code] finds the identifier and copies the file as it
    is, [paste_file_code] does not find it in the copied text nor in the
    file and writes the identifier once more in front. *)
Theorem copy_paste_form_feed :
  let copied := [FF] ++ u "# foo.py" ++ [LF] ++ u "print(1)" ++ [LF] in
  read_text (fs ex_formfeed) ex_foo = Ok copied
  /\ clipboard (copy_file_code ex_formfeed ex_foo) = copied
  /\ fs (copy_file_code ex_formfeed ex_foo) = fs ex_formfeed
  /\ written (copy_file_code ex_formfeed ex_foo) ex_foo
     = Some (TextFile (u "# foo.py" ++ [LF] ++ copied))
  /\ written (copy_file_code ex_formfeed ex_foo) ex_foo
     ≠ Some (TextFile (clipboard (copy_file_code ex_formfeed ex_foo))).
Proof.
  cbn zeta. repeat split; try (vm_compute; reflexivity).
  vm_compute. discriminate.
Qed.

(** C4, as the code has it: when the reading for the snapshot fails,
    [save_current_version] reports the read error and pushes nothing, and
    the paste goes on.  A clipboard that carries the identifier is written
    verbatim, and a clipboard without it is written behind the identifier
    when the target does not exist; only a target that exists, cannot be
    read and would have to be read to choose the content makes the paste
    give up, the disk unchanged. *)
Theorem paste_proceeds_without_snapshot (s : State) (p : Path) :
  let expected := single_identifier p (selected_directory s) in
  let clip := clipboard s in
  let s' := paste_file_code s p in
  clip ≠ [] ->
  snapshot_read_fails s p ->
  (stripped_first_line clip = Some expected -> p ∉ locked (fs s) ->
     previous_versions s' = previous_versions s
     /\ shown s' = shown s ++ [CriticalBox (FailedToRead p);
                               StatusBar (PastedContent p)]
     /\ files (fs s') !! p = Some (TextFile clip))
  /\ (stripped_first_line clip ≠ Some expected ->
      exists_ (fs s) p = false -> p ∉ locked (fs s) ->
      previous_versions s' = previous_versions s
      /\ shown s' = shown s ++ [CriticalBox (FailedToRead p);
                                StatusBar (PastedContent p)]
      /\ files (fs s') !! p = Some (TextFile (expected ++ [LF] ++ clip)))
  /\ (stripped_first_line clip ≠ Some expected ->
      exists_ (fs s) p = true ->
      fs s' = fs s
      /\ previous_versions s' = previous_versions s
      /\ shown s' = shown s ++ [CriticalBox (FailedToPaste p)]).
Proof.
  intros expected clip s' Hne [e Hr].
  destruct (splitlines_nonempty clip Hne) as (line0 & more & Hl).
  unfold stripped_first_line. rewrite Hl. simpl.
  subst expected clip. split; [|split].
  - intros [= Heq] Hw.
    apply (paste_without_snapshot s p e line0 more); try done.
    by apply content_verbatim.
  - intros Hmis Habs Hw.
    apply (paste_without_snapshot s p e line0 more); try done.
    apply content_prefixed; [congruence|by left].
  - intros Hmis Hex. unfold s', paste_file_code.
    destruct (clipboard s) as [|c0 cl] eqn:Hclip; [done|].
    rewrite Hl. unfold content_to_write.
    rewrite decide_False by congruence. by rewrite Hex, Hr.
Qed.

Lemma paste_proceeds_without_snapshot_witness :
  previous_versions (paste_file_code ex_paste_new ex_new)
    = previous_versions ex_paste_new
  /\ shown (paste_file_code ex_paste_new ex_new)
     = shown ex_paste_new ++ [CriticalBox (FailedToRead ex_new);
                              StatusBar (PastedContent ex_new)]
  /\ files (fs (paste_file_code ex_paste_new ex_new)) !! ex_new
     = Some (TextFile (u "# new.py" ++ [LF] ++ u "print(3)" ++ [LF])).
Proof.
  refine (proj1 (proj2 (paste_proceeds_without_snapshot
                          ex_paste_new ex_new _ _)) _ _ _).
  - vm_compute. discriminate.
  - exists FileNotFoundError. vm_compute. reflexivity.
  - vm_compute. discriminate.
  - vm_compute. reflexivity.
  - apply (bool_decide_unpack _). vm_compute. exact I.
Defined.

(** C4 as stated fails, for a missing target and for one that cannot be
    decoded: the reading for the snapshot fails and the write is done. *)
Lemma paste_writes_after_failed_snapshot :
  (clipboard ex_paste_new ≠ []
   /\ snapshot_read_fails ex_paste_new ex_new
   /\ ~ paste_aborted ex_paste_new ex_new)
  /\ (clipboard ex_binary ≠ []
      /\ snapshot_read_fails ex_binary ex_foo
      /\ files (fs ex_binary) !! ex_foo = Some Binary
      /\ files (fs (paste_file_code ex_binary ex_foo)) !! ex_foo
         = Some (TextFile (clipboard ex_binary))
      /\ ~ paste_aborted ex_binary ex_foo).
Proof.
  split.
  - split; [vm_compute; discriminate|].
    split; [exists FileNotFoundError; vm_compute; reflexivity|].
    intros [Hfs _]. apply (f_equal (fun d => files d !! ex_new)) in Hfs.
    vm_compute in Hfs. discriminate.
  - split; [vm_compute; discriminate|].
    split; [exists UnicodeDecodeError; vm_compute; reflexivity|].
    split; [vm_compute; reflexivity|].
    split; [vm_compute; reflexivity|].
    intros [Hfs _]. apply (f_equal (fun d => files d !! ex_foo)) in Hfs.
    vm_compute in Hfs. discriminate.
Qed.

(** C5, as the code has it: snapshots are pushed by paste and by the
    single-file copy, both through [save_current_version], and by nothing
    else.  Every other action leaves each history as it was, or, for a
    revert, without its most recent snapshot; a copy of a readable file,
    and a paste of a non-empty clipboard to one, push the file's current
    text on the file's history. *)
Theorem snapshots_pushed_by_copy_and_paste_only (s : State) (a : action) :
  (forall p, a ≠ CopyFileCode p) ->
  (forall p, a ≠ PasteFileCode p) ->
  pushes_no_snapshot s a
  /\ (forall p text,
        read_text (fs s) p = Ok text ->
        history (step s (CopyFileCode p)) p =
          let h := history s p ++ [text] in
          if decide (5 < length h)%nat then drop 1 h else h)
  /\ (forall p text,
        clipboard s ≠ [] ->
        read_text (fs s) p = Ok text ->
        history (step s (PasteFileCode p)) p =
          let h := history s p ++ [text] in
          if decide (5 < length h)%nat then drop 1 h else h).
Proof.
  intros Hc Hp. split; [|split].
  - intros q.
    assert ((exists p, a = RevertFileCode p)
            \/ forall p, a ≠ RevertFileCode p) as [[p ->]|Hr].
    { destruct a; try (by right); left; by eexists. }
    + simpl. destruct (decide (p = q)) as [->|Hne].
      * rewrite history_revert.
        destruct (history s q) as [|x h _] using rev_ind; [done|].
        rewrite removelast_last. by apply prefix_app_r.
      * by rewrite history_revert_other.
    + unfold history. by rewrite versions_step.
  - intros p text Hr. simpl. unfold copy_file_code. rewrite Hr.
    cbn zeta.
    set (s1 := with_clipboard s _).
    assert (history (show (save_current_version s1 p)
                          (StatusBar (CopiedToClipboard p))) p
            = history (save_current_version s1 p) p) as -> by done.
    by rewrite (history_save s1 p text Hr).
  - intros p text Hne Hr. by apply history_paste.
Qed.

Lemma snapshots_pushed_by_copy_and_paste_only_witness :
  pushes_no_snapshot ex_session CopyCombinedCode.
Proof.
  apply (snapshots_pushed_by_copy_and_paste_only ex_session CopyCombinedCode);
    intros p; discriminate.
Defined.

(** C5 as stated fails: the single-file copy is not a paste, and it
    pushes a snapshot. *)
Lemma copy_pushes_snapshot :
  (forall p, CopyFileCode ex_foo ≠ PasteFileCode p)
  /\ history ex_session ex_foo = []
  /\ history (step ex_session (CopyFileCode ex_foo)) ex_foo
     = [u "print(1)" ++ [LF]]
  /\ ~ pushes_no_snapshot ex_session (CopyFileCode ex_foo).
Proof.
  assert (history ex_session ex_foo = []) as H0 by (vm_compute; reflexivity).
  assert (history (step ex_session (CopyFileCode ex_foo)) ex_foo
          = [u "print(1)" ++ [LF]]) as H1 by (vm_compute; reflexivity).
  split; [intros p; discriminate|]. split; [done|]. split; [done|].
  intros Hno. specialize (Hno ex_foo). rewrite H0, H1 in Hno.
  destruct Hno as [k Hk]. discriminate.
Qed.



(** C7: in every state of a session no two entries of the file list have
    the same file name.  In particular this holds after every replace and
    every add (from the file dialog or from a directory tab); a replace
    keeps, for each name, the first candidate of the selection that
    carries it; an add leaves the existing entries in place and puts no
    path in the list whose name an existing entry has. *)
Theorem filename_dedup_invariant (s : State) :
  reachable s ->
  NoDup (name <$> file_paths s)
  /\ (forall selection,
        NoDup (name <$> file_paths (upload_files_replace s selection)))
  /\ (forall fp rest n,
        first_with_name n
          (file_paths (upload_files_replace s (Some (fp :: rest))))
        = first_with_name n (filter (fun q => is_candidate q) (fp :: rest)))
  /\ (forall selection,
        let s' := upload_files_add s selection in
        NoDup (name <$> file_paths s')
        /\ file_paths s `prefix_of` file_paths s'
        /\ forall fp, name fp ∈ name <$> file_paths s ->
                      fp ∉ file_paths s -> fp ∉ file_paths s')
  /\ (forall dir_key,
        let s' := add_selected_files_from_tab s dir_key in
        NoDup (name <$> file_paths s')
        /\ file_paths s `prefix_of` file_paths s'
        /\ forall fp, name fp ∈ name <$> file_paths s ->
                      fp ∉ file_paths s -> fp ∉ file_paths s').
Proof.
  intros Hs%reachable_consistent.
  split; [apply Hs|]. split; [|split; [|split]].
  - intros selection. by apply consistent_upload_replace.
  - intros fp rest n. simpl. apply first_unique_by_name.
  - intros selection s'.
    destruct (upload_files_add_grows s selection Hs) as ([Hnd _] & Hpre & _).
    split; [done|]. split; [done|]. intros fp.
    by apply name_collision_not_added.
  - intros dir_key s'.
    destruct (add_from_tab_grows s dir_key Hs) as ([Hnd _] & Hpre & _).
    split; [done|]. split; [done|]. intros fp.
    by apply name_collision_not_added.
Qed.

Lemma filename_dedup_invariant_witness :
  file_paths (upload_files_add ex_session (Some [ex_bar2])) = [ex_foo; ex_bar]
  /\ ex_bar2 ∉ file_paths (upload_files_add ex_session (Some [ex_bar2])).
Proof.
  split; [vm_compute; reflexivity|].
  apply (proj1 (proj2 (proj2 (proj2
           (filename_dedup_invariant ex_session ex_session_reachable))))
         (Some [ex_bar2])).
  - apply (bool_decide_unpack _). vm_compute. exact I.
  - apply (bool_decide_unpack _). vm_compute. exact I.
Defined.

(** C8: the rows with a set checkbox are the entries of the file list in
    the checked set, in the order of the list, and likewise the rows
    with a cleared one.  [move_checked_files_to_head] turns the file list
    into its checked entries followed by its unchecked entries, each
    group in its former order; a second application changes neither the
    list nor the rows;
    and with no entry checked the list stays as it is, which the status
    bar reports as a plain message. *)
Theorem move_checked_stable_partition (s : State) :
  reachable s ->
  let checked := fun fp => fp ∈ checked_file_paths s in
  let unchecked := fun fp => fp ∉ checked_file_paths s in
  let s' := move_checked_files_to_head s in
  (filter (fun row => row.1 = true) (checkboxes s)).*2
    = filter checked (file_paths s)
  /\ (filter (fun row => row.1 = false) (checkboxes s)).*2
     = filter unchecked (file_paths s)
  /\ file_paths s' = filter checked (file_paths s)
                     ++ filter unchecked (file_paths s)
  /\ file_paths (move_checked_files_to_head s') = file_paths s'
  /\ checkboxes (move_checked_files_to_head s') = checkboxes s'
  /\ (filter checked (file_paths s) = [] ->
      file_paths s' = file_paths s
      /\ checkboxes s' = checkboxes s
      /\ shown s' = shown s ++ [StatusBar NoFilesSelectedToMove]).
Proof.
  intros Hs%reachable_consistent checked unchecked s'.
  pose proof (move_checked_file_paths s Hs) as Hmove.
  pose proof (consistent_move s Hs) as Hs'. fold s' in Hmove, Hs'.
  pose proof (move_checked_keeps_checked s) as Hkeep. fold s' in Hkeep.
  assert (file_paths (move_checked_files_to_head s') = file_paths s') as Hidem.
  { rewrite (move_checked_file_paths_at s' _ Hs' Hkeep), Hmove.
    apply partition_twice. }
  split; [destruct Hs as [_ ->]; apply checked_rows|].
  split; [destruct Hs as [_ ->]; apply unchecked_rows|].
  split; [done|]. split; [done|]. split.
  - rewrite (checkboxes_at _ (checked_file_paths s) (consistent_move s' Hs'))
      by (by rewrite move_checked_keeps_checked).
    rewrite (checkboxes_at s' _ Hs' Hkeep). by rewrite Hidem.
  - intros Hnone. unfold s', move_checked_files_to_head.
    destruct Hs as [_ Hcb]. rewrite Hcb, checked_rows. fold checked.
    by rewrite Hnone.
Qed.

Lemma move_checked_stable_partition_witness :
  file_paths (move_checked_files_to_head ex_unchecked) = [ex_bar; ex_foo]
  /\ file_paths (move_checked_files_to_head
                   (move_checked_files_to_head ex_unchecked))
     = file_paths (move_checked_files_to_head ex_unchecked).
Proof.
  pose proof (move_checked_stable_partition ex_unchecked
                ex_unchecked_reachable) as (_ & _ & H1 & H2 & _).
  split; [|exact H2]. rewrite H1. vm_compute. reflexivity.
Defined.

(** C9, as the code has it: a non-empty clipboard without the identifier,
    pasted to a file that carries it, is written as the identifier, a
    newline and the clipboard's lines joined by newlines.  The last line
    terminator of the clipboard is thereby dropped: the written text ends
    with a newline exactly when the last line of the clipboard is empty,
    so not when the clipboard ends with a single newline after another
    character, but still when it ends with two newlines. *)
Theorem paste_joined_lines_drop_last_terminator (s : State) (p : Path) :
  let expected := single_identifier p (selected_directory s) in
  let joined := expected ++ [LF] ++ join_lf (splitlines (clipboard s)) in
  keeps_existing_identifier s p ->
  p ∉ locked (fs s) ->
  written s p = Some (TextFile joined)
  /\ (last joined = Some LF <-> last (splitlines (clipboard s)) = Some [])
  /\ (forall body c, clipboard s = body ++ [c; LF] ->
                     is_linebreak c = false -> last joined ≠ Some LF)
  /\ (forall body, clipboard s = body ++ [LF; LF] -> last joined = Some LF).
Proof.
  intros expected joined (Hne & Hmis & text & Hread & Hcur) Hw.
  pose proof (last_joined_lines expected (clipboard s) Hne) as Hiff.
  fold joined in Hiff. split; [|split; [done|split]].
  - destruct (splitlines_nonempty (clipboard s) Hne) as (line0 & more & Hl).
    apply (written_content s p line0 more); [done| |done].
    unfold joined. rewrite Hl.
    apply (content_joined _ _ _ _ _ _ text); [|done..].
    unfold stripped_first_line in Hmis. rewrite Hl in Hmis. simpl in Hmis.
    congruence.
  - intros body c Hclip Hc Hend. apply Hiff in Hend. rewrite Hclip in Hend.
    destruct (splitlines_ends_with_line body c Hc) as (ls & l & Heq).
    rewrite Heq, last_snoc in Hend. injection Hend as Hend.
    by apply app_eq_nil in Hend as [_ ?].
  - intros body Hclip. apply Hiff. rewrite Hclip.
    destruct (splitlines_ends_with_empty body) as (l0 & ls & ->).
    by rewrite app_comm_cons, last_snoc.
Qed.

Lemma paste_joined_lines_drop_last_terminator_witness :
  written ex_two_newlines ex_foo =
    Some (TextFile (u "# foo.py" ++ [LF] ++ u "print(3)" ++ [LF])).
Proof.
  refine (proj1 (paste_joined_lines_drop_last_terminator
                   ex_two_newlines ex_foo ex_two_newlines_case _)).
  apply (bool_decide_unpack _). vm_compute. exact I.
Defined.

(** C9 as stated fails: here the clipboard ends with a newline and so
    does the text written by the second branch. *)
Lemma joined_lines_may_end_with_newline :
  keeps_existing_identifier ex_two_newlines ex_foo
  /\ (ex_foo ∉ locked (fs ex_two_newlines))
  /\ last (clipboard ex_two_newlines) = Some LF
  /\ exists content,
       written ex_two_newlines ex_foo = Some (TextFile content)
       /\ last content = Some LF.
Proof.
  split; [exact ex_two_newlines_case|].
  split; [apply (bool_decide_unpack _); vm_compute; exact I|].
  split; [vm_compute; reflexivity|].
  exists (u "# foo.py" ++ [LF] ++ u "print(3)" ++ [LF]).
  split; vm_compute; reflexivity.
Qed.



(** * Further properties of the code *)

(** ** What every state of a session satisfies *)

Section tidy_facts.

Implicit Types (s : State) (p : Path) (L : list Path).

Lemma foldl_preserves_in {A B} (P : A -> Prop) (f : A -> B -> A)
  (l : list B) a :
  P a -> (forall a x, x ∈ l -> P a -> P (f a x)) -> P (foldl f a l).
Proof.
  revert a. induction l as [|x l IH]; intros a Ha Hstep; simpl; [done|].
  apply IH.
  - apply Hstep; [by left|done].
  - intros a' y Hy. apply Hstep. by right.
Qed.

Lemma unique_loop_id (l unique : list Path) (seen : gset str) :
  seen = list_to_set (name <$> unique) ->
  NoDup (name <$> (unique ++ l)) ->
  (foldl unique_step (unique, seen) l).1 = unique ++ l.
Proof.
  revert unique seen. induction l as [|fp l IH]; intros unique seen Hseen Hnd.
  { simpl. by rewrite app_nil_r. }
  change (foldl ?f ?a (fp :: l)) with (foldl f (f a fp) l).
  unfold unique_step at 2. cbn [fst snd].
  rewrite decide_False.
  - rewrite (IH (unique ++ [fp]) ({[name fp]} ∪ seen)).
    + by rewrite <- app_assoc.
    + subst seen. rewrite fmap_app, list_to_set_app_L. simpl.
      rewrite (right_id_L ∅ (∪)). apply (comm_L (∪)).
    + by rewrite <- app_assoc.
  - subst seen. rewrite elem_of_list_to_set.
    rewrite fmap_app, fmap_cons in Hnd.
    apply NoDup_app in Hnd as (_ & Hdis & _). intros Hin.
    apply (Hdis _ Hin). by left.
Qed.

Lemma unique_by_name_id L : NoDup (name <$> L) -> unique_by_name L = L.
Proof. intros Hnd. by apply (unique_loop_id L [] ∅). Qed.

Lemma unique_loop_subset (l unique : list Path) (seen : gset str) q :
  q ∈ (foldl unique_step (unique, seen) l).1 -> q ∈ unique ++ l.
Proof.
  revert unique seen. induction l as [|fp l IH]; intros unique seen.
  { simpl. by rewrite app_nil_r. }
  change (foldl ?f ?a (fp :: l)) with (foldl f (f a fp) l).
  unfold unique_step at 2. cbn [fst snd].
  destruct (decide (name fp ∈ seen)).
  - intros Hq%IH. rewrite elem_of_app in *. rewrite elem_of_cons. tauto.
  - intros Hq%IH. by rewrite <- app_assoc in Hq.
Qed.

Lemma unique_by_name_subset L q : q ∈ unique_by_name L -> q ∈ L.
Proof. intros Hq. by apply (unique_loop_subset L [] ∅) in Hq. Qed.

Lemma candidates_unique_filter L :
  Forall (fun fp => is_candidate fp)
         (unique_by_name (filter (fun fp => is_candidate fp) L)).
Proof.
  apply Forall_forall. intros q Hq%unique_by_name_subset.
  by apply list_elem_of_filter in Hq as [? _].
Qed.

Lemma filter_and_scan_keeps_list s walked :
  consistent s -> listed_candidates s ->
  file_paths (filter_and_scan_file_paths s walked) = file_paths s
  /\ checked_file_paths (filter_and_scan_file_paths s walked)
     = checked_file_paths s
  /\ checkboxes (filter_and_scan_file_paths s walked) = checkboxes s.
Proof.
  intros [Hnd Hcb] Hcand.
  assert (unique_by_name (filter (fun fp => is_candidate fp) (file_paths s))
          = file_paths s) as Hid.
  { rewrite filter_all by done. by apply unique_by_name_id. }
  unfold filter_and_scan_file_paths, display_filenames. simpl.
  rewrite Hid. by rewrite <- Hcb.
Qed.

Lemma list_remove_subset L p q : q ∈ list_remove p L -> q ∈ L.
Proof.
  induction L as [|t L IH]; simpl; [done|].
  destruct (decide (p = t)); [by right|].
  intros [->|Hq]%elem_of_cons; [by left|right; by apply IH].
Qed.

Lemma list_remove_other L p q : q ∈ L -> q ≠ p -> q ∈ list_remove p L.
Proof.
  induction L as [|t L IH]; simpl; [done|].
  intros [->|Hq]%elem_of_cons Hne.
  - rewrite decide_False by done. by left.
  - destruct (decide (p = t)); [done|]. right. by apply IH.
Qed.

(** The scan puts only candidates in the tabs. *)
Lemma scan_tabs_candidates s walked :
  tabs_candidates (scan_and_display_directory_files s walked).
Proof.
  unfold tabs_candidates, scan_and_display_directory_files. simpl.
  apply (foldl_preserves
    (fun grouped : gmap str (list (bool * Path)) =>
       forall k rows, grouped !! k = Some rows ->
                      Forall (fun row : bool * Path => is_candidate row.2) rows)).
  { intros k rows. by rewrite lookup_empty. }
  intros grouped fp IH k rows.
  destruct (negb (pruned fp (selected_directory s)) && is_candidate fp)
    eqn:Hc; [|apply IH].
  apply andb_prop in Hc as [_ Hc].
  destruct (decide (dir_label fp (selected_directory s) = k)) as [<-|Hne].
  - rewrite lookup_insert_eq. intros [= <-]. apply Forall_app. split.
    + destruct (grouped !! _) eqn:Hg; simpl; [by eapply IH|constructor].
    + apply Forall_singleton. simpl. by rewrite Hc.
  - rewrite lookup_insert_ne by done. apply IH.
Qed.

End tidy_facts.

Section tidy_preservation.

Implicit Types (s : State) (p : Path).

Lemma rest_same s s' :
  file_paths s' = file_paths s ->
  checked_file_paths s' = checked_file_paths s ->
  tab_file_checkboxes s' = tab_file_checkboxes s ->
  listed_candidates s /\ tabs_candidates s /\ checked_listed s ->
  listed_candidates s' /\ tabs_candidates s' /\ checked_listed s'.
Proof.
  unfold listed_candidates, tabs_candidates, checked_listed.
  by intros -> -> ->.
Qed.

Lemma tabs_save s p :
  tab_file_checkboxes (save_current_version s p) = tab_file_checkboxes s.
Proof. unfold save_current_version. by destruct (read_text _ _). Qed.

Lemma tabs_copy s p :
  tab_file_checkboxes (copy_file_code s p) = tab_file_checkboxes s.
Proof.
  unfold copy_file_code. destruct (read_text _ _); [|done].
  unfold save_current_version. simpl. by destruct (read_text _ _).
Qed.

Lemma tabs_paste s p :
  tab_file_checkboxes (paste_file_code s p) = tab_file_checkboxes s.
Proof.
  unfold paste_file_code. destruct (clipboard s); [done|].
  destruct (splitlines _); [done|].
  destruct (content_to_write _ _ _ _ _ _); [|done].
  pose proof (tabs_save s p). by destruct (write_text _ _ _).
Qed.

Lemma tabs_revert s p :
  tab_file_checkboxes (revert_file_code s p) = tab_file_checkboxes s.
Proof.
  unfold revert_file_code.
  destruct (_ ≫= _) as [[x r]|]; [|done]. by destruct (write_text _ _ _).
Qed.

Lemma tabs_copy_combined s :
  tab_file_checkboxes (copy_combined_code s) = tab_file_checkboxes s.
Proof.
  unfold copy_combined_code. destruct (combine_code s) as [code msgs].
  assert (tab_file_checkboxes (foldl show s msgs) = tab_file_checkboxes s)
    as Hs by (by apply (foldl_preserves
      (fun s' => tab_file_checkboxes s' = tab_file_checkboxes s))).
  by destruct (strip code).
Qed.

Lemma tabs_copy_paths s :
  tab_file_checkboxes (copy_all_file_paths s) = tab_file_checkboxes s.
Proof. unfold copy_all_file_paths. by destruct (selected_files s). Qed.

Lemma rest_filter_and_scan s walked :
  consistent s -> listed_candidates s -> checked_listed s ->
  let s' := filter_and_scan_file_paths s walked in
  listed_candidates s' /\ tabs_candidates s' /\ checked_listed s'.
Proof.
  intros Hs Hcand Hck s'.
  destruct (filter_and_scan_keeps_list s walked Hs Hcand) as (Hf & Hc & _).
  fold s' in Hf, Hc. unfold listed_candidates, checked_listed.
  rewrite Hf, Hc. split; [done|]. split; [|done].
  apply (scan_tabs_candidates
           (with_file_paths s
              (unique_by_name
                 (filter (fun fp => is_candidate fp) (file_paths s))))
           walked).
Qed.

Lemma rest_upload_replace s selection :
  listed_candidates s /\ tabs_candidates s /\ checked_listed s ->
  let s' := upload_files_replace s selection in
  listed_candidates s' /\ tabs_candidates s' /\ checked_listed s'.
Proof.
  intros Hs. destruct selection as [[|fp l]|]; [done| |done]. simpl.
  split; [apply candidates_unique_filter|]. split; [apply Hs|].
  intros q. unfold checked_listed. simpl. by rewrite elem_of_list_to_set.
Qed.

Lemma rest_append s fp :
  is_candidate fp ->
  listed_candidates s /\ tabs_candidates s /\ checked_listed s ->
  let s' := check_file (with_file_paths s (file_paths s ++ [fp])) fp in
  listed_candidates s' /\ tabs_candidates s' /\ checked_listed s'.
Proof.
  intros Hfp (Hc & Ht & Hk). simpl. split; [|split; [done|]].
  - apply Forall_app. split; [done|]. by apply Forall_singleton.
  - intros q. unfold checked_listed. simpl.
    rewrite elem_of_union, elem_of_singleton, elem_of_app, list_elem_of_singleton.
    intros [->|Hq]; [by right|left; by apply Hk].
Qed.

Lemma rest_upload_add s selection :
  listed_candidates s /\ tabs_candidates s /\ checked_listed s ->
  let s' := upload_files_add s selection in
  listed_candidates s' /\ tabs_candidates s' /\ checked_listed s'.
Proof.
  intros Hs. destruct selection as [[|fp l]|]; [done| |done].
  cbn zeta. unfold upload_files_add.
  pose proof (foldl_preserves_in
    (fun acc : State * gset str * list Path * list Path =>
       listed_candidates acc.1.1.1 /\ tabs_candidates acc.1.1.1
       /\ checked_listed acc.1.1.1)
    add_step (filter (fun fp => is_candidate fp) (fp :: l))
    (s, list_to_set (name <$> file_paths s), [], []) Hs) as Hloop.
  destruct (foldl add_step _ _) as [[[s' E'] added] skipped].
  assert (listed_candidates s' /\ tabs_candidates s' /\ checked_listed s')
    as Hs'.
  { apply Hloop. intros [[[s1 E1] a1] k1] q Hq Hacc. unfold add_step.
    destruct (decide (name q ∈ E1)); [done|]. simpl in *.
    apply rest_append; [|done]. by apply list_elem_of_filter in Hq as [? _]. }
  by destruct added, skipped.
Qed.

Lemma rest_add_from_tab s dir_key :
  listed_candidates s /\ tabs_candidates s /\ checked_listed s ->
  let s' := add_selected_files_from_tab s dir_key in
  listed_candidates s' /\ tabs_candidates s' /\ checked_listed s'.
Proof.
  intros Hs. cbn zeta. unfold add_selected_files_from_tab.
  destruct (tab_file_checkboxes s !! dir_key) as [rows|] eqn:Hrows; [|done].
  pose proof (foldl_preserves_in
    (fun acc : State * gset str * list Path * bool =>
       listed_candidates acc.1.1.1 /\ tabs_candidates acc.1.1.1
       /\ checked_listed acc.1.1.1)
    tab_step rows
    (s, list_to_set (name <$> file_paths s), [], false) Hs) as Hloop.
  destruct (foldl tab_step _ _) as [[[s' E'] added] any].
  assert (listed_candidates s' /\ tabs_candidates s' /\ checked_listed s')
    as Hs'.
  { apply Hloop. intros [[[s1 E1] a1] k1] [b q] Hq Hacc. unfold tab_step.
    destruct b; [|done]. destruct (decide (name q ∈ E1)); [done|].
    simpl in *. apply rest_append; [|done].
    destruct Hs as (_ & Ht & _). specialize (Ht _ _ Hrows).
    rewrite Forall_forall in Ht. by apply (Ht (true, q)). }
  destruct any; simpl; [|done]. by destruct added.
Qed.

Lemma rest_tabs s t :
  (forall k rows, t !! k = Some rows ->
                  Forall (fun row : bool * Path => is_candidate row.2) rows) ->
  listed_candidates s /\ tabs_candidates s /\ checked_listed s ->
  listed_candidates (with_tabs s t) /\ tabs_candidates (with_tabs s t)
  /\ checked_listed (with_tabs s t).
Proof. by intros Ht (? & _ & ?). Qed.

Lemma rest_tab_clicked s dir_key i state :
  listed_candidates s /\ tabs_candidates s /\ checked_listed s ->
  let s' := tab_checkbox_clicked s dir_key i state in
  listed_candidates s' /\ tabs_candidates s' /\ checked_listed s'.
Proof.
  intros Hs. cbn zeta. unfold tab_checkbox_clicked.
  destruct (tab_file_checkboxes s !! dir_key) as [rows|] eqn:Hrows; [|done].
  destruct (rows !! i) as [[b fp]|] eqn:Hi; [|done].
  apply rest_tabs; [|done]. intros k rows'.
  destruct Hs as (_ & Ht & _).
  destruct (decide (dir_key = k)) as [<-|Hne].
  - rewrite lookup_insert_eq. intros [= <-]. specialize (Ht _ _ Hrows).
    apply Forall_insert; [done|]. simpl.
    rewrite Forall_forall in Ht. apply (Ht (b, fp)).
    by eapply list_elem_of_lookup_2.
  - rewrite lookup_insert_ne by done. apply Ht.
Qed.

Lemma rest_set_all_in_tab s dir_key state :
  listed_candidates s /\ tabs_candidates s /\ checked_listed s ->
  let s' := set_all_in_tab s dir_key state in
  listed_candidates s' /\ tabs_candidates s' /\ checked_listed s'.
Proof.
  intros Hs. cbn zeta. unfold set_all_in_tab.
  destruct (tab_file_checkboxes s !! dir_key) as [rows|] eqn:Hrows; [|done].
  apply rest_tabs; [|done]. intros k rows'.
  destruct Hs as (_ & Ht & _).
  destruct (decide (dir_key = k)) as [<-|Hne].
  - rewrite lookup_insert_eq. intros [= <-]. specialize (Ht _ _ Hrows).
    apply Forall_fmap. by eapply Forall_impl.
  - rewrite lookup_insert_ne by done. apply Ht.
Qed.

Lemma rest_checkbox s i state :
  consistent s ->
  listed_candidates s /\ tabs_candidates s /\ checked_listed s ->
  let s' := checkbox_state_changed s i state in
  listed_candidates s' /\ tabs_candidates s' /\ checked_listed s'.
Proof.
  intros [_ Hcb] (Hc & Ht & Hk). cbn zeta. unfold checkbox_state_changed.
  destruct (checkboxes s !! i) as [[b fp]|] eqn:Hi; [|done].
  assert (fp ∈ file_paths s) as Hfp.
  { rewrite Hcb, list_lookup_fmap in Hi.
    destruct (file_paths s !! i) as [q|] eqn:Hq; simpl in Hi; [|done].
    injection Hi as _ <-. by eapply list_elem_of_lookup_2. }
  destruct state; (split; [done|]); (split; [done|]); intros q;
    unfold checked_listed; simpl.
  - rewrite elem_of_union, elem_of_singleton. intros [->|Hq]; auto.
  - rewrite elem_of_difference. intros [Hq _]. auto.
Qed.

Lemma rest_select_all s :
  consistent s ->
  listed_candidates s /\ tabs_candidates s /\ checked_listed s ->
  listed_candidates (select_all_files s)
  /\ tabs_candidates (select_all_files s)
  /\ checked_listed (select_all_files s).
Proof.
  intros [_ Hcb] (Hc & Ht & Hk). unfold select_all_files. rewrite check_all.
  split; [done|]. split; [done|]. intros q. unfold checked_listed. simpl.
  rewrite elem_of_union, elem_of_list_to_set, Hcb, rows_paths.
  intros [Hq|Hq]; auto.
Qed.

Lemma rest_unselect_all s :
  listed_candidates s /\ tabs_candidates s /\ checked_listed s ->
  listed_candidates (unselect_all_files s)
  /\ tabs_candidates (unselect_all_files s)
  /\ checked_listed (unselect_all_files s).
Proof.
  intros (Hc & Ht & Hk). unfold unselect_all_files. rewrite uncheck_all.
  split; [done|]. split; [done|]. intros q. unfold checked_listed. simpl.
  rewrite elem_of_difference. intros [Hq _]. auto.
Qed.

Lemma rest_remove s p :
  listed_candidates s /\ tabs_candidates s /\ checked_listed s ->
  listed_candidates (remove_file s p) /\ tabs_candidates (remove_file s p)
  /\ checked_listed (remove_file s p).
Proof.
  intros (Hc & Ht & Hk). unfold remove_file.
  destruct (bool_decide (p ∈ file_paths s)); [|done].
  split; [|split; [done|]].
  - unfold listed_candidates in *. simpl. rewrite Forall_forall in *.
    intros q Hq%list_remove_subset. auto.
  - intros q. unfold checked_listed. simpl.
    rewrite elem_of_difference, elem_of_singleton. intros [Hq Hne].
    apply list_remove_other; auto.
Qed.

Lemma rest_move s :
  consistent s ->
  listed_candidates s /\ tabs_candidates s /\ checked_listed s ->
  listed_candidates (move_checked_files_to_head s)
  /\ tabs_candidates (move_checked_files_to_head s)
  /\ checked_listed (move_checked_files_to_head s).
Proof.
  intros Hs (Hc & Ht & Hk).
  pose proof (move_checked_file_paths s Hs) as Hf.
  pose proof (move_checked_keeps_checked s) as Hck.
  pose proof (partition_Permutation (file_paths s) (checked_file_paths s))
    as Hperm. rewrite <- Hf in Hperm.
  split; [|split].
  - unfold listed_candidates. by rewrite Hperm.
  - unfold move_checked_files_to_head. by destruct ((filter _ _).*2).
  - intros q. unfold checked_listed. rewrite Hck, Hperm. apply Hk.
Qed.

Lemma tidy_init stored_paths stored_dir clip d walked :
  tidy (init stored_paths stored_dir clip d walked).
Proof.
  split; [apply consistent_filter_and_scan|]. unfold init.
  split; [apply candidates_unique_filter|]. split.
  - apply (scan_tabs_candidates
             (with_file_paths (mkState stored_dir stored_paths ∅ [] ∅ ∅ clip d [])
                (unique_by_name
                   (filter (fun fp => is_candidate fp) stored_paths)))
             walked).
  - intros q. unfold checked_listed. simpl. by rewrite elem_of_empty.
Qed.

Lemma tidy_step s a : tidy s -> tidy (step s a).
Proof.
  intros (Hs & Hrest). split; [by apply consistent_step|].
  pose proof Hrest as (Hc & Ht & Hk).
  destruct a; simpl.
  - destruct chosen_dir as [d|]; [|done].
    by apply (rest_filter_and_scan (with_directory s d) walked).
  - by apply (rest_filter_and_scan s walked).
  - by apply rest_upload_replace.
  - by apply rest_upload_add.
  - by apply rest_add_from_tab.
  - by apply rest_tab_clicked.
  - by apply rest_set_all_in_tab.
  - by apply rest_set_all_in_tab.
  - by apply rest_checkbox.
  - by apply rest_select_all.
  - by apply rest_unselect_all.
  - by apply rest_remove.
  - destruct (same_list_copy s file_path) as (Hf & Hck & _).
    by apply (rest_same s _ Hf Hck (tabs_copy s file_path)).
  - destruct (same_list_paste s file_path) as (Hf & Hck & _).
    by apply (rest_same s _ Hf Hck (tabs_paste s file_path)).
  - destruct (same_list_revert s file_path) as (Hf & Hck & _).
    by apply (rest_same s _ Hf Hck (tabs_revert s file_path)).
  - by apply rest_move.
  - destruct (same_list_copy_combined s) as (Hf & Hck & _).
    by apply (rest_same s _ Hf Hck (tabs_copy_combined s)).
  - destruct (same_list_copy_paths s) as (Hf & Hck & _).
    by apply (rest_same s _ Hf Hck (tabs_copy_paths s)).
  - done.
  - done.
Qed.

Lemma reachable_tidy s : reachable s -> tidy s.
Proof.
  induction 1 as [stored_paths stored_dir clip d walked|s a _ IH].
  - apply tidy_init.
  - by apply tidy_step.
Qed.

End tidy_preservation.

Lemma is_candidate_spec fp :
  is_candidate fp <->
  lower (suffix fp) = u ".py" /\ name fp ∉ excluded_filenames.
Proof.
  unfold is_candidate, allowed_extensions.
  rewrite andb_True, negb_True, !bool_decide_spec, list_elem_of_singleton.
  done.
Qed.

(** X1: in every state of a session the rows shown are the entries of the
    file list, in its order, and a row's checkbox is set exactly when its
    path is in the checked set; so the files that [combine_code] and the
    other actions on the selection take are the checked entries of the
    list, in list order. *)
Theorem session_rows_mirror_list (s : State) :
  reachable s ->
  (checkboxes s).*2 = file_paths s
  /\ (forall i b fp, checkboxes s !! i = Some (b, fp) ->
                     (b = true <-> fp ∈ checked_file_paths s))
  /\ selected_files s
     = filter (fun fp => fp ∈ checked_file_paths s) (file_paths s).
Proof.
  intros [_ Hcb]%reachable_consistent. split; [|split].
  - rewrite Hcb. apply rows_paths.
  - intros i b fp. rewrite Hcb, list_lookup_fmap.
    destruct (file_paths s !! i) as [q|]; [|done]. simpl.
    intros [= <- <-]. apply bool_decide_eq_true.
  - unfold selected_files. rewrite Hcb. apply checked_rows.
Qed.

Lemma session_rows_mirror_list_witness :
  selected_files ex_unchecked = [ex_bar].
Proof.
  rewrite (proj2 (proj2 (session_rows_mirror_list ex_unchecked
                           ex_unchecked_reachable))).
  vm_compute. reflexivity.
Defined.

(** X2: in every state of a session each entry of the file list, and each
    row of each directory tab, is a file whose suffix is ".py" in any
    letter case and whose name is none of the excluded ones. *)
Theorem session_lists_only_candidates (s : State) :
  reachable s ->
  (forall fp, fp ∈ file_paths s ->
              lower (suffix fp) = u ".py" /\ name fp ∉ excluded_filenames)
  /\ (forall k rows b fp,
        tab_file_checkboxes s !! k = Some rows -> (b, fp) ∈ rows ->
        lower (suffix fp) = u ".py" /\ name fp ∉ excluded_filenames).
Proof.
  intros (_ & Hc & Ht & _)%reachable_tidy. split.
  - intros fp Hfp. apply is_candidate_spec.
    unfold listed_candidates in Hc. rewrite Forall_forall in Hc. auto.
  - intros k rows b fp Hk Hrow. apply is_candidate_spec.
    specialize (Ht k rows Hk). rewrite Forall_forall in Ht.
    apply (Ht (b, fp) Hrow).
Qed.

Lemma session_lists_only_candidates_witness :
  lower (suffix ex_bar) = u ".py" /\ name ex_bar ∉ excluded_filenames.
Proof.
  apply (proj1 (session_lists_only_candidates ex_session
                  ex_session_reachable)).
  apply (bool_decide_unpack _). vm_compute. exact I.
Defined.

(** X3: in every state of a session every checked path is an entry of
    the file list, so the selected files are exactly the checked set. *)
Theorem session_checked_are_listed (s : State) :
  reachable s ->
  (forall fp, fp ∈ checked_file_paths s -> fp ∈ file_paths s)
  /\ (forall fp, fp ∈ selected_files s <-> fp ∈ checked_file_paths s).
Proof.
  intros Hs. pose proof (reachable_tidy s Hs) as ([_ Hcb] & _ & _ & Hk).
  split; [done|]. intros fp. unfold selected_files.
  rewrite Hcb, checked_rows, list_elem_of_filter. split; [tauto|].
  intros Hfp. split; [done|]. by apply Hk.
Qed.

Lemma session_checked_are_listed_witness :
  ex_bar ∈ selected_files ex_unchecked
  <-> ex_bar ∈ checked_file_paths ex_unchecked.
Proof.
  exact (proj2 (session_checked_are_listed ex_unchecked
                  ex_unchecked_reachable) ex_bar).
Defined.

(** X4: in every state of a session a rescan, and a change of the
    selected directory, leave the file list, the checked set and the rows
    as they are (the filter and the removal of duplicate names find
    nothing to drop), and touch neither the histories, the clipboard nor
    the disk; a cancelled directory dialog changes nothing at all. *)
Theorem rescan_keeps_file_list (s : State) (walked : list Path) :
  reachable s ->
  (forall s', s' = reload_files s walked
              \/ (exists d, s' = select_directory s (Some d) walked) ->
     file_paths s' = file_paths s
     /\ checked_file_paths s' = checked_file_paths s
     /\ checkboxes s' = checkboxes s
     /\ previous_versions s' = previous_versions s
     /\ clipboard s' = clipboard s /\ fs s' = fs s)
  /\ select_directory s None walked = s.
Proof.
  intros (Hs & Hc & _)%reachable_tidy. split; [|done].
  intros s' [->|[d ->]].
  - destruct (filter_and_scan_keeps_list s walked Hs Hc) as (Hf & Hk & Hb).
    by repeat split.
  - destruct (filter_and_scan_keeps_list (with_directory s d) walked)
      as (Hf & Hk & Hb); [done..|].
    by repeat split.
Qed.

Lemma rescan_keeps_file_list_witness :
  file_paths (reload_files ex_unchecked []) = [ex_foo; ex_bar].
Proof.
  rewrite (proj1 (proj1 (rescan_keeps_file_list ex_unchecked []
                           ex_unchecked_reachable) _ (or_introl eq_refl))).
  vm_compute. reflexivity.
Defined.

(** ** The scan *)

Section scan_facts.

Context (script_dir : Path).

Lemma group_loop (walked : list Path) (k : str) :
  default [] (foldl (group_step script_dir) ∅ walked !! k)
  = (fun fp => (false, fp))
      <$> filter (fun fp => (negb (pruned fp script_dir) && is_candidate fp)
                            /\ dir_label fp script_dir = k) walked
  /\ foldl (group_step script_dir) ∅ walked !! k ≠ Some [].
Proof.
  induction walked as [|fp walked [IH1 IH2]] using rev_ind.
  { simpl. by rewrite lookup_empty. }
  rewrite foldl_snoc, filter_app, fmap_app, <- IH1.
  set (m := foldl (group_step script_dir) ∅ walked) in *.
  destruct (negb (pruned fp script_dir) && is_candidate fp) eqn:Hv.
  - assert (group_step script_dir m fp
            = <[dir_label fp script_dir :=
                  default [] (m !! dir_label fp script_dir) ++ [(false, fp)]]> m)
      as -> by (unfold group_step; by rewrite Hv).
    destruct (decide (dir_label fp script_dir = k)) as [Hk|Hk].
    + rewrite filter_cons_True by (by rewrite Hv). rewrite filter_nil. simpl.
      rewrite Hk, lookup_insert_eq. simpl. split; [done|].
      intros [= Hnil]. by apply app_eq_nil in Hnil as [_ ?].
    + rewrite filter_cons_False by (by intros [_ ?]). rewrite filter_nil.
      simpl. rewrite lookup_insert_ne by done. by rewrite app_nil_r.
  - assert (group_step script_dir m fp = m) as ->
      by (unfold group_step; by rewrite Hv).
    rewrite filter_cons_False by (rewrite Hv; by intros [[] _]).
    rewrite filter_nil. simpl. by rewrite app_nil_r.
Qed.

End scan_facts.

(** X5: the scan puts in the tab of a directory label, unchecked and in
    the order of the walk, exactly the walked files that pass the path
    filter, lie in no excluded directory and have that label; a label
    without such a file gets no tab (no tab is empty); and the scan
    changes nothing but the tabs. *)
Theorem scan_groups_by_directory (s : State) (walked : list Path) (k : str) :
  let s' := scan_and_display_directory_files s walked in
  let shown_in_tab := fun fp =>
    (negb (pruned fp (selected_directory s)) && is_candidate fp)
    /\ dir_label fp (selected_directory s) = k in
  default [] (tab_file_checkboxes s' !! k)
  = (fun fp => (false, fp)) <$> filter shown_in_tab walked
  /\ tab_file_checkboxes s' !! k ≠ Some []
  /\ (filter shown_in_tab walked = [] -> tab_file_checkboxes s' !! k = None)
  /\ with_tabs s' (tab_file_checkboxes s) = s.
Proof.
  cbn zeta. unfold scan_and_display_directory_files.
  destruct (group_loop (selected_directory s) walked k) as [H1 H2].
  cbn [tab_file_checkboxes with_tabs]. split; [done|]. split; [done|].
  split; [|by destruct s].
  intros Hnone. rewrite Hnone in H1.
  destruct (foldl _ ∅ walked !! k) as [rows|]; [|done].
  simpl in H1. by subst rows.
Qed.

(** ** Removing, selecting and adding entries *)

Section entry_facts.

Implicit Types (s : State) (p : Path) (L : list Path).

Lemma list_remove_absent L p : p ∉ L -> list_remove p L = L.
Proof.
  induction L as [|q L IH]; [done|]. simpl.
  intros [Hne HL]%not_elem_of_cons. rewrite decide_False by done.
  by rewrite IH.
Qed.

Lemma list_remove_filter L p :
  NoDup L -> list_remove p L = filter (fun q => q ≠ p) L.
Proof.
  induction 1 as [|q L Hq Hnd IH]; [done|]. simpl.
  destruct (decide (p = q)) as [->|Hne].
  - rewrite filter_cons_False by (by intros []).
    symmetry. apply filter_all, Forall_forall. by intros t Ht ->.
  - rewrite filter_cons_True by done. by rewrite IH.
Qed.

Lemma filter_filter_swap L (C : gset Path) p :
  filter (fun fp => fp ∈ C ∖ {[p]}) (filter (fun q => q ≠ p) L)
  = filter (fun q => q ≠ p) (filter (fun fp => fp ∈ C) L).
Proof.
  rewrite !list_filter_filter. apply list_filter_iff. intros q.
  rewrite elem_of_difference, elem_of_singleton. tauto.
Qed.

Lemma all_true_rows (rows : list (bool * Path)) :
  (filter (fun row : bool * Path => row.1 = true)
          ((fun row : bool * Path => (true, row.2)) <$> rows)).*2
  = rows.*2.
Proof.
  induction rows as [|row rows IH]; [done|].
  rewrite !fmap_cons, filter_cons_True by done.
  by rewrite fmap_cons, IH.
Qed.

End entry_facts.

(** X6: [remove_file] does nothing for a path that is not in the list.
    For an entry of the list, in any state of a session, it takes the
    entry out of the list, of the checked set and of the selected files,
    keeps all other entries in their order, leaves the history of the
    removed path as it is, and a second removal changes nothing. *)
Theorem remove_file_effect (s : State) (p : Path) :
  reachable s ->
  let s' := remove_file s p in
  (p ∉ file_paths s -> s' = s)
  /\ (p ∈ file_paths s ->
      file_paths s' = filter (fun q => q ≠ p) (file_paths s)
      /\ (p ∉ file_paths s')
      /\ (p ∉ checked_file_paths s')
      /\ selected_files s' = filter (fun q => q ≠ p) (selected_files s)
      /\ previous_versions s' = previous_versions s
      /\ remove_file s' p = s').
Proof.
  intros Hs s'. pose proof (reachable_consistent s Hs) as [Hnd Hcb].
  apply NoDup_paths in Hnd. split.
  - intros Hno. unfold s', remove_file.
    by rewrite bool_decide_eq_false_2.
  - intros Hin.
    assert (file_paths s' = filter (fun q => q ≠ p) (file_paths s)) as Hf.
    { unfold s', remove_file. rewrite bool_decide_eq_true_2 by done. simpl.
      by apply list_remove_filter. }
    assert (p ∉ file_paths s') as Hgone.
    { rewrite Hf. by intros [? _]%list_elem_of_filter. }
    split; [done|]. split; [done|]. split; [|split; [|split]].
    + unfold s', remove_file. rewrite bool_decide_eq_true_2 by done. simpl.
      rewrite elem_of_difference, elem_of_singleton. tauto.
    + unfold s', remove_file. rewrite bool_decide_eq_true_2 by done.
      unfold selected_files. simpl. rewrite checked_rows.
      rewrite Hcb, checked_rows, list_remove_filter by done.
      apply filter_filter_swap.
    + unfold s', remove_file. by rewrite bool_decide_eq_true_2.
    + unfold remove_file at 1. by rewrite bool_decide_eq_false_2.
Qed.

Lemma remove_file_effect_witness :
  file_paths (remove_file ex_session ex_foo) = [ex_bar]
  /\ selected_files (remove_file ex_session ex_foo) = [ex_bar].
Proof.
  pose proof (proj2 (remove_file_effect ex_session ex_foo
                       ex_session_reachable)) as H.
  destruct H as (H1 & _ & _ & H2 & _).
  { apply (bool_decide_unpack _). vm_compute. exact I. }
  rewrite H1, H2. split; vm_compute; reflexivity.
Defined.

(** X7: in every state of a session [select_all_files] makes every entry
    of the list a selected file, and [unselect_all_files] leaves no
    selected file and an empty checked set; neither changes the list. *)
Theorem select_all_and_none (s : State) :
  reachable s ->
  selected_files (select_all_files s) = file_paths s
  /\ file_paths (select_all_files s) = file_paths s
  /\ selected_files (unselect_all_files s) = []
  /\ checked_file_paths (unselect_all_files s) = ∅
  /\ file_paths (unselect_all_files s) = file_paths s
  /\ selected_files (unselect_all_files (select_all_files s)) = [].
Proof.
  intros Hs. pose proof (reachable_tidy s Hs) as ([Hnd Hcb] & _ & _ & Hk).
  assert (forall t : State,
    selected_files (unselect_all_files t) = []) as Hnone.
  { intros t. unfold unselect_all_files, selected_files.
    rewrite uncheck_all. simpl.
    induction (checkboxes t) as [|row rows IH]; [done|].
    rewrite fmap_cons, filter_cons_False by done. apply IH. }
  split; [|split; [|split; [|split; [|split]]]]; try done.
  - unfold select_all_files, selected_files. rewrite check_all. simpl.
    rewrite all_true_rows. by rewrite Hcb, rows_paths.
  - unfold select_all_files. by rewrite check_all.
  - unfold unselect_all_files. rewrite uncheck_all. simpl.
    apply set_eq. intros q.
    rewrite elem_of_difference, elem_of_list_to_set, Hcb, rows_paths.
    split; [|by intros ?%elem_of_empty]. intros [Hq Hno]. destruct Hno.
    by apply Hk.
  - unfold unselect_all_files. by rewrite uncheck_all.
Qed.

Lemma select_all_and_none_witness :
  selected_files (select_all_files ex_unchecked) = [ex_foo; ex_bar].
Proof.
  rewrite (proj1 (select_all_and_none ex_unchecked ex_unchecked_reachable)).
  vm_compute. reflexivity.
Defined.

Section upload_facts.

Implicit Types (s : State) (E : gset str).

Lemma add_loop_outcome (l : list Path) s E (added skipped : list Path) :
  E = list_to_set (name <$> file_paths s) ->
  exists s1 E1 added' skipped',
    foldl add_step (s, E, added, skipped) l
      = (s1, E1, added ++ added', skipped ++ skipped')
    /\ file_paths s1 = file_paths s ++ added'
    /\ checked_file_paths s1 = list_to_set added' ∪ checked_file_paths s
    /\ shown s1 = shown s
    /\ (forall q, q ∈ l -> q ∈ added' \/ q ∈ skipped')
    /\ (forall q, q ∈ added' -> q ∈ l)
    /\ (forall q, q ∈ skipped' -> q ∈ l)
    /\ (forall q, q ∈ skipped' -> name q ∈ name <$> file_paths s1).
Proof.
  revert s E added skipped.
  induction l as [|fp l IH]; intros s E added skipped HE.
  { exists s, E, [], []. rewrite !app_nil_r. simpl.
    rewrite (left_id_L ∅ (∪)). repeat split; try done.
    - by intros q ?%elem_of_nil.
    - by intros q ?%elem_of_nil. }
  change (foldl ?f ?a (fp :: l)) with (foldl f (f a fp) l).
  unfold add_step at 2. destruct (decide (name fp ∈ E)) as [Hin|Hnew].
  - destruct (IH s E added (skipped ++ [fp]) HE)
      as (s1 & E1 & a' & k' & Hfold & Hf & Hc & Hsh & Hall & Ha & Hs & Hk).
    exists s1, E1, a', (fp :: k'). rewrite Hfold.
    split; [by rewrite <- app_assoc|]. repeat split; try done.
    + intros q [->|Hq]%elem_of_cons; [right; by left|].
      destruct (Hall q Hq); [by left|right; by right].
    + intros q Hq. right. by apply Ha.
    + intros q [->|Hq]%elem_of_cons; [by left|right; by apply Hs].
    + intros q [->|Hq]%elem_of_cons; [|by apply Hk].
      rewrite Hf, fmap_app, elem_of_app. left.
      subst E. by apply elem_of_list_to_set in Hin.
  - destruct (IH (check_file (with_file_paths s (file_paths s ++ [fp])) fp)
                ({[name fp]} ∪ E) (added ++ [fp]) skipped)
      as (s1 & E1 & a' & k' & Hfold & Hf & Hc & Hsh & Hall & Ha & Hs & Hk).
    { subst E. simpl. rewrite fmap_app, list_to_set_app_L. simpl.
      rewrite (right_id_L ∅ (∪)). apply (comm_L (∪)). }
    exists s1, E1, (fp :: a'), k'. rewrite Hfold.
    split; [by rewrite <- app_assoc|]. simpl in Hf, Hc, Hsh.
    repeat split; try done.
    + by rewrite Hf, <- app_assoc.
    + rewrite Hc. apply set_eq. intros q. simpl.
      rewrite !elem_of_union, elem_of_singleton. tauto.
    + intros q [->|Hq]%elem_of_cons; [left; by left|].
      destruct (Hall q Hq); [left; by right|by right].
    + intros q [->|Hq]%elem_of_cons; [by left|right; by apply Ha].
    + intros q Hq. right. by apply Hs.
Qed.

End upload_facts.

(** X8: after [upload_files_replace] with a non-empty selection every
    entry of the new list is checked and selected, each entry is a
    candidate of the selection, every candidate of the selection has an
    entry with its name, and what was checked before counts no more; the
    histories stay.  A cancelled or empty dialog leaves the list. *)
Theorem upload_replace_checks_all (s : State) (fp : Path) (rest : list Path) :
  let s' := upload_files_replace s (Some (fp :: rest)) in
  selected_files s' = file_paths s'
  /\ checked_file_paths s' = list_to_set (file_paths s')
  /\ (forall q, q ∈ file_paths s' -> q ∈ fp :: rest /\ is_candidate q)
  /\ (forall q, q ∈ fp :: rest -> is_candidate q ->
                name q ∈ name <$> file_paths s')
  /\ previous_versions s' = previous_versions s
  /\ upload_files_replace s None = s
  /\ file_paths (upload_files_replace s (Some [])) = file_paths s.
Proof.
  cbn zeta.
  set (L := unique_by_name (filter (fun q => is_candidate q) (fp :: rest))).
  assert (file_paths (upload_files_replace s (Some (fp :: rest))) = L)
    as Hf by done.
  rewrite Hf. repeat split; try done.
  - unfold selected_files. cbn -[filter]. fold L. rewrite checked_rows.
    apply filter_all, Forall_forall. intros q Hq.
    by apply elem_of_list_to_set.
  - apply unique_by_name_subset in H. by apply list_elem_of_filter in H as [_ ?].
  - apply unique_by_name_subset in H. by apply list_elem_of_filter in H as [? _].
  - intros q Hq Hc.
    assert (q ∈ filter (fun q => is_candidate q) (fp :: rest)) as Hqf
      by (by apply list_elem_of_filter).
    pose proof (first_unique_by_name
                  (filter (fun q => is_candidate q) (fp :: rest)) (name q))
      as Hfirst.
    fold L in Hfirst. unfold first_with_name in Hfirst.
    assert (q ∈ filter (fun t => name t = name q)
                       (filter (fun q => is_candidate q) (fp :: rest)))
      as Hqn by (by apply list_elem_of_filter).
    destruct (filter (fun t => name t = name q) L) as [|t ts] eqn:Ht.
    + destruct (filter _ (filter _ (fp :: rest))); [|done].
      by apply elem_of_nil in Hqn.
    + assert (t ∈ filter (fun t => name t = name q) L) as Hin
        by (rewrite Ht; by left).
      apply list_elem_of_filter in Hin as [Hn Hin].
      apply list_elem_of_fmap. by exists t.
Qed.

(** X9: [upload_files_add] with a non-empty selection splits the
    candidates of the selection in two: those it appends to the list and
    checks, and those it skips, each of which has the name of an entry of
    the resulting list.  The warning about duplicates is the last message
    exactly when a path was skipped; it gives the number of skipped paths,
    the file names of the first five of them and, when more than five
    were skipped, the number of the others. *)
Theorem upload_add_outcome (s : State) (fp : Path) (rest : list Path) :
  let s' := upload_files_add s (Some (fp :: rest)) in
  exists added skipped,
    file_paths s' = file_paths s ++ added
    /\ checked_file_paths s' = list_to_set added ∪ checked_file_paths s
    /\ (forall q, q ∈ fp :: rest -> is_candidate q ->
                  q ∈ added \/ q ∈ skipped)
    /\ (forall q, q ∈ added \/ q ∈ skipped ->
                  q ∈ fp :: rest /\ is_candidate q)
    /\ (forall q, q ∈ skipped -> name q ∈ name <$> file_paths s')
    /\ shown s' = shown s
         ++ match added with
            | [] => []
            | _ => [StatusBar (AddedFiles (length added))]
            end
         ++ match skipped with
            | [] => []
            | _ =>
                [WarningBox
                   (DuplicatesSkipped
                      (length skipped) (name <$> take 5 skipped)
                      (if decide (5 < length skipped)%nat
                       then Some (length skipped - 5)%nat else None))]
            end.
Proof.
  cbn zeta. unfold upload_files_add.
  destruct (add_loop_outcome
              (filter (fun q => is_candidate q) (fp :: rest)) s
              (list_to_set (name <$> file_paths s)) [] [] eq_refl)
    as (s1 & E1 & added & skipped & Hfold & Hf & Hc & Hsh & Hall & Ha & Hs
        & Hk).
  rewrite Hfold. simpl app. exists added, skipped.
  assert (forall q, q ∈ fp :: rest -> is_candidate q ->
                    q ∈ added \/ q ∈ skipped) as Hall'.
  { intros q Hq Hcand. apply Hall. by apply list_elem_of_filter. }
  assert (forall q, q ∈ added \/ q ∈ skipped ->
                    q ∈ fp :: rest /\ is_candidate q) as Ha'.
  { intros q [Hq%Ha|Hq%Hs]; apply list_elem_of_filter in Hq; tauto. }
  destruct added as [|a added], skipped as [|k skipped];
    (split; [exact Hf|]); (split; [exact Hc|]); (split; [exact Hall'|]);
    (split; [exact Ha'|]); (split; [exact Hk|]); cbn zeta;
    cbn [shown show display_filenames with_checkboxes];
    rewrite Hsh, ?app_nil_r, <- ?app_assoc; done.
Qed.

(** ** What touches the disk and the histories *)

Section disk_frame.

Implicit Types (s : State) (p q : Path).










End disk_frame.



(** X11: the history of a path changes only by a copy, a paste or a
    revert of that very path; every other action, and a copy, paste or
    revert of another path, leaves it as it is.  So removing a file from
    the list, or replacing the list, keeps the snapshots of the file. *)
Theorem history_changed_only_by_own_actions (s : State) (a : action)
  (q : Path) :
  a ≠ CopyFileCode q -> a ≠ PasteFileCode q -> a ≠ RevertFileCode q ->
  history (step s a) q = history s q.
Proof.
  intros Hc Hp Hr.
  assert ((exists p, a = CopyFileCode p) \/ (exists p, a = PasteFileCode p)
          \/ (exists p, a = RevertFileCode p)
          \/ ((forall p, a ≠ CopyFileCode p)
              /\ (forall p, a ≠ PasteFileCode p)
              /\ (forall p, a ≠ RevertFileCode p)))
    as [[p ->]|[[p ->]|[[p ->]|(Hc' & Hp' & Hr')]]].
  { destruct a; try (by right; right; right);
      [left|right; left|right; right; left]; by eexists. }
  - assert (p ≠ q) as Hne by congruence. simpl. unfold copy_file_code.
    destruct (read_text (fs s) p); [|done]. cbn zeta.
    set (s1 := with_clipboard s _). unfold save_current_version.
    destruct (read_text (fs s1) p); [|done].
    apply (history_push_ne s1 p q _ Hne).
  - assert (p ≠ q) as Hne by congruence. simpl. unfold paste_file_code.
    destruct (clipboard s); [done|]. destruct (splitlines _); [done|].
    destruct (content_to_write _ _ _ _ _ _); [|done]. cbn zeta.
    assert (history (save_current_version s p) q = history s q) as Hsv.
    { unfold save_current_version. destruct (read_text (fs s) p); [|done].
      by apply history_push_ne. }
    by destruct (write_text _ _ _).
  - assert (p ≠ q) as Hne by congruence. simpl.
    by apply history_revert_other.
  - unfold history. by rewrite versions_step.
Qed.

Lemma history_changed_only_by_own_actions_witness :
  history (step ex_locked (RemoveFile ex_foo)) ex_foo = [u "v1"; u "v2"].
Proof.
  rewrite (history_changed_only_by_own_actions ex_locked
             (RemoveFile ex_foo) ex_foo) by discriminate.
  vm_compute. reflexivity.
Defined.

(** ** Paste, its snapshot and the way back *)

Section newline_facts.

Implicit Types (s : str) (c : char).

Lemma universal_newlines_no_cr s :
  Forall (fun c => c ≠ CR) (universal_newlines s).
Proof.
  induction s as [|c s IH1 IH2] using str_ind2; [constructor|].
  cbn [universal_newlines]. destruct (c =? CR) eqn:Hc.
  - constructor; [done|]. destruct s as [|c' s']; [constructor|].
    destruct (c' =? LF); [by apply (IH2 c' s')|done].
  - constructor; [|done]. by apply N.eqb_neq.
Qed.

Lemma universal_newlines_fixed s :
  Forall (fun c => c ≠ CR) s -> universal_newlines s = s.
Proof.
  induction 1 as [|c s Hc _ IH]; [done|]. cbn [universal_newlines].
  apply N.eqb_neq in Hc. by rewrite Hc, IH.
Qed.

(** A text that was read holds no carriage return: reading it again
    after writing it gives the same text. *)
Lemma read_text_fixed (d : disk) (p : Path) s :
  read_text d p = Ok s -> universal_newlines s = s.
Proof.
  unfold read_text. destruct (files d !! p) as [[raw| |]|]; try done.
  intros [= <-]. apply universal_newlines_fixed, universal_newlines_no_cr.
Qed.

(** Newline translation does not move the lines [splitlines] finds. *)
Lemma splitlines_universal s :
  splitlines (universal_newlines s) = splitlines s.
Proof.
  induction s as [|c s IH1 IH2] using str_ind2; [done|].
  cbn [universal_newlines]. destruct (c =? CR) eqn:Hc.
  - apply N.eqb_eq in Hc as ->. destruct s as [|c' s']; [done|].
    destruct (c' =? LF) eqn:Hc'.
    + apply N.eqb_eq in Hc' as ->. rewrite splitlines_crlf.
      rewrite splitlines_break by (done || by left).
      by rewrite (IH2 LF s').
    + rewrite splitlines_break by (done || by left). rewrite IH1.
      symmetry. apply splitlines_break; [done|]. right. simpl.
      intros [= ->]. done.
  - apply N.eqb_neq in Hc. destruct (is_linebreak c) eqn:Hb.
    + rewrite !splitlines_break by (done || by left). by rewrite IH1.
    + rewrite !splitlines_char by done. by rewrite IH1.
Qed.

Lemma stripped_first_line_read (d : disk) (p : Path) content :
  files d !! p = Some (TextFile content) ->
  exists text, read_text d p = Ok text
               /\ stripped_first_line text = stripped_first_line content.
Proof.
  intros Hf. exists (universal_newlines content). unfold read_text.
  rewrite Hf. split; [done|]. unfold stripped_first_line.
  by rewrite splitlines_universal.
Qed.

Lemma lstrip_lstrip s : lstrip (lstrip s) = lstrip s.
Proof.
  destruct (lstrip s) as [|c t] eqn:Hs; [done|].
  apply lstrip_nonspace. by eapply lstrip_head.
Qed.

Lemma rstrip_rstrip s : rstrip (rstrip s) = rstrip s.
Proof. unfold rstrip. by rewrite reverse_involutive, lstrip_lstrip. Qed.

Lemma strip_strip s : strip (strip s) = strip s.
Proof.
  destruct (rstrip_split (lstrip s)) as (post & Hl & Hpost).
  fold (strip s) in Hl. destruct (strip s) as [|c t] eqn:Hs; [done|].
  unfold strip at 1. rewrite lstrip_nonspace.
  - rewrite <- Hs. unfold strip. apply rstrip_rstrip.
  - by apply (lstrip_head s c (t ++ post)).
Qed.

Lemma strip_no_linebreak s : no_linebreak s -> no_linebreak (strip s).
Proof.
  intros Hs. destruct (rstrip_split (lstrip s)) as (post & Hl & _).
  fold (strip s) in Hl. rewrite (lstrip_split s), Hl in Hs.
  unfold no_linebreak in *. rewrite !Forall_app in Hs. tauto.
Qed.

End newline_facts.

Section paste_facts.

Implicit Types (s : State) (p : Path) (h : list str).

Lemma trim_snoc h (x : str) :
  (if decide (5 < length (h ++ [x]))%nat then drop 1 (h ++ [x])
   else h ++ [x])
  = (if decide (5 <= length h)%nat then drop 1 h else h) ++ [x].
Proof.
  rewrite length_app. simpl.
  destruct (decide _) as [H1|H1], (decide _) as [H2|H2]; try lia; [|done].
  destruct h; simpl in *; [lia|done].
Qed.

Lemma revert_file_code_ok s p x h :
  list_pop (history s p) = Some (x, h) ->
  p ∉ locked (fs s) ->
  revert_file_code s p =
    show (with_fs (with_versions s (<[p := h]> (previous_versions s)))
            (mkDisk (<[p := TextFile x]> (files (fs s))) (locked (fs s))))
         (StatusBar (RevertedToPrevious p)).
Proof.
  intros Hpop Hw. unfold revert_file_code. rewrite pop_history, Hpop.
  cbn zeta. unfold write_text. simpl. by rewrite decide_False.
Qed.


(** Whatever [content_to_write] chooses begins with the identifier
    line. *)
Lemma content_first_line (d : disk) (script_dir : Path) p clipboard_text
  line0 more content :
  let expected := single_identifier p script_dir in
  no_linebreak expected -> strip expected = expected ->
  splitlines clipboard_text = line0 :: more ->
  content_to_write d script_dir p clipboard_text line0 more = Ok content ->
  stripped_first_line content = Some expected.
Proof.
  intros expected Hno Hstrip Hl. unfold content_to_write.
  fold expected. destruct (decide (strip line0 = expected)) as [Heq|Hne].
  { intros [= <-]. unfold stripped_first_line. rewrite Hl. simpl.
    by rewrite Heq. }
  destruct (exists_ d p).
  - destruct (read_text d p) as [text|e]; [|done].
    destruct (splitlines text) as [|e0 es].
    { intros [= <-].
      by apply (first_line_after_identifier expected clipboard_text). }
    destruct (decide (strip e0 = expected)) as [->|Hne'].
    + intros [= <-].
      by apply (first_line_after_identifier expected (join_lf (line0 :: more))).
    + intros [= <-].
      by apply (first_line_after_identifier expected clipboard_text).
  - intros [= <-].
    by apply (first_line_after_identifier expected clipboard_text).
Qed.

Lemma content_to_write_total (d : disk) (script_dir : Path) p clipboard_text
  line0 more :
  (forall e, read_text d p = Raise e -> e = FileNotFoundError) ->
  exists content,
    content_to_write d script_dir p clipboard_text line0 more = Ok content.
Proof.
  intros He. destruct (read_text d p) as [text|e] eqn:Hr.
  { by apply (content_to_write_readable _ _ _ _ _ _ text). }
  specialize (He e eq_refl) as ->. unfold content_to_write.
  destruct (decide _); [eauto|].
  assert (exists_ d p = false) as ->; [|eauto].
  unfold exists_, read_text in *. apply bool_decide_eq_false.
  intros [x Hx]. rewrite Hx in Hr. by destruct x.
Qed.

End paste_facts.

(** X12: a paste to a readable, writable file followed by a revert of
    that file puts back the text that was read before the paste (the file
    then holds that text with its line ends as "\n"), leaves every other
    file alone, and leaves the history of the file as it was, less its
    oldest snapshot when it held five. *)
Theorem paste_then_revert_restores (s : State) (p : Path) (text : str) :
  clipboard s ≠ [] ->
  read_text (fs s) p = Ok text ->
  p ∉ locked (fs s) ->
  let s2 := revert_file_code (paste_file_code s p) p in
  files (fs s2) !! p = Some (TextFile text)
  /\ read_text (fs s2) p = Ok text
  /\ (forall q, q ≠ p -> files (fs s2) !! q = files (fs s) !! q)
  /\ history s2 p = (if decide (5 <= length (history s p))%nat
                     then drop 1 (history s p) else history s p).
Proof.
  intros Hne Hr Hw.
  destruct (splitlines_nonempty _ Hne) as (line0 & more & Hl).
  destruct (content_to_write_readable (fs s) (selected_directory s) p
              (clipboard s) line0 more text Hr) as [content Hc].
  pose proof (history_paste s p text Hne Hr) as Hh. cbn zeta in Hh.
  rewrite trim_snoc in Hh.
  pose proof (paste_file_code_ok s p line0 more content Hl Hc Hw) as Hp.
  set (s1 := paste_file_code s p) in *.
  assert (fs s1 = mkDisk (<[p := TextFile content]> (files (fs s)))
                         (locked (fs s))) as Hfs by (by rewrite Hp).
  cbn zeta.
  rewrite (revert_file_code_ok s1 p text
             (if decide (5 <= length (history s p))%nat
              then drop 1 (history s p) else history s p)).
  - simpl. rewrite Hfs. simpl. split; [|split; [|split]].
    + by rewrite lookup_insert_eq.
    + unfold read_text. simpl. rewrite lookup_insert_eq.
      by rewrite (read_text_fixed _ _ _ Hr).
    + intros q Hq. by rewrite !lookup_insert_ne.
    + unfold history. simpl. by rewrite lookup_insert_eq.
  - rewrite Hh. apply list_pop_snoc.
  - by rewrite Hfs.
Qed.

Lemma paste_then_revert_restores_witness :
  read_text (fs (revert_file_code (paste_file_code ex_two_newlines ex_foo)
                                  ex_foo)) ex_foo
  = read_text (fs ex_two_newlines) ex_foo.
Proof.
  destruct (read_text (fs ex_two_newlines) ex_foo) as [text|e] eqn:Hr;
    [|vm_compute in Hr; discriminate].
  apply (paste_then_revert_restores ex_two_newlines ex_foo text).
  - vm_compute. discriminate.
  - exact Hr.
  - apply (bool_decide_unpack _). vm_compute. exact I.
Defined.



(** X14: when the identifier of a path holds no line break and no outer
    whitespace, every paste of a non-empty clipboard to that path, if the
    path can be written and is absent or readable, leaves a file whose
    first line, stripped, is the identifier. *)
Theorem paste_leaves_identifier_line (s : State) (p : Path) :
  let expected := single_identifier p (selected_directory s) in
  no_linebreak expected -> strip expected = expected ->
  clipboard s ≠ [] ->
  p ∉ locked (fs s) ->
  (forall e, read_text (fs s) p = Raise e -> e = FileNotFoundError) ->
  exists text,
    read_text (fs (paste_file_code s p)) p = Ok text
    /\ stripped_first_line text = Some expected.
Proof.
  intros expected Hno Hstrip Hne Hw He.
  destruct (splitlines_nonempty _ Hne) as (line0 & more & Hl).
  destruct (content_to_write_total (fs s) (selected_directory s) p
              (clipboard s) line0 more He) as [content Hc].
  pose proof (content_first_line _ _ _ _ _ _ _ Hno Hstrip Hl Hc) as Hfirst.
  destruct (stripped_first_line_read (fs (paste_file_code s p)) p content)
    as (text & Hread & Htext).
  { rewrite (paste_file_code_ok s p line0 more content Hl Hc Hw). simpl.
    by rewrite lookup_insert_eq. }
  exists text. split; [done|]. by rewrite Htext.
Qed.

Lemma paste_leaves_identifier_line_witness :
  exists text,
    read_text (fs (paste_file_code ex_paste_new ex_new)) ex_new = Ok text
    /\ stripped_first_line text
       = Some (single_identifier ex_new (selected_directory ex_paste_new)).
Proof.
  apply (paste_leaves_identifier_line ex_paste_new ex_new).
  - vm_compute. repeat constructor.
  - vm_compute. reflexivity.
  - vm_compute. discriminate.
  - apply (bool_decide_unpack _). vm_compute. exact I.
  - intros e. vm_compute. by intros [= <-].
Defined.

(** ** The clipboard after combining and after copying the paths *)

Section blank_facts.

Implicit Types (s t : str) (c : char).











(** The lines of texts joined by "\n" are these texts, when none of them
    is empty or holds a line break. *)
Lemma splitlines_line l :
  l ≠ [] -> no_linebreak l -> splitlines l = [l].
Proof.
  intros Hne Hl. induction Hl as [|c l Hc Hl IH]; [done|].
  rewrite splitlines_char by done. destruct l as [|c' l']; [done|].
  by rewrite IH.
Qed.

Lemma splitlines_app_lf l t :
  no_linebreak l -> splitlines (l ++ LF :: t) = l :: splitlines t.
Proof.
  induction 1 as [|c l Hc _ IH]; simpl app.
  - apply splitlines_break; [done|by left].
  - rewrite splitlines_char by done. by rewrite IH.
Qed.

Lemma splitlines_join_lf (ls : list str) :
  Forall (fun l => l ≠ [] /\ no_linebreak l) ls ->
  splitlines (join_lf ls) = ls.
Proof.
  induction 1 as [|l ls [Hne Hl] Hls IH]; [done|].
  destruct ls as [|l' ls'].
  - by apply splitlines_line.
  - change (join_lf (l :: l' :: ls')) with (l ++ LF :: join_lf (l' :: ls')).
    by rewrite splitlines_app_lf, IH.
Qed.

End blank_facts.


(** X16: [copy_all_file_paths] with no checked file warns and keeps the
    clipboard; with checked files whose paths, as written relative to the
    root, are not empty and hold no line break, the lines of the new
    clipboard text are these paths, one for each checked file in list
    order. *)
Theorem copy_all_file_paths_lines (s : State) :
  let s' := copy_all_file_paths s in
  let lines := (fun fp => relative_or_absolute fp (selected_directory s))
                 <$> selected_files s in
  (selected_files s = [] ->
     clipboard s' = clipboard s
     /\ shown s' = shown s ++ [WarningBox NoFilesToCopyPaths])
  /\ (selected_files s ≠ [] ->
      clipboard s' = join_lf lines
      /\ shown s' = shown s
                      ++ [StatusBar (CopiedPaths (length (selected_files s)))]
      /\ (Forall (fun l => l ≠ [] /\ no_linebreak l) lines ->
          splitlines (clipboard s') = lines)).
Proof.
  intros s' lines. subst s' lines. unfold copy_all_file_paths. split.
  - by intros ->.
  - intros Hne. destruct (selected_files s) as [|fp l] eqn:Hsel; [done|].
    cbn zeta. split; [done|]. split; [done|]. simpl clipboard.
    apply splitlines_join_lf.
Qed.

(** ** The two identifiers, the tabs and the rows *)

Section identifier_facts.

Implicit Types (root : Path) (comps : list str) (n : str).

Lemma relative_to_below root comps :
  relative_to (mkPath (anchor root) (parts root ++ comps)) root
  = Some (mkPath [] comps).
Proof.
  unfold relative_to. simpl. rewrite decide_True.
  - by rewrite drop_app_length.
  - split; [done|]. by rewrite take_app_length.
Qed.

Lemma join_slash_snoc comps n :
  comps ≠ [] -> join_slash (comps ++ [n]) = join_slash comps ++ 47 :: n.
Proof.
  induction comps as [|x comps IH]; [done|]. intros _.
  destruct comps as [|y comps]; [done|].
  change (join_slash ((x :: y :: comps) ++ [n]))
    with (x ++ 47 :: join_slash ((y :: comps) ++ [n])).
  rewrite IH by done. simpl. by rewrite <- app_assoc.
Qed.

Lemma as_posix_relative comps :
  comps ≠ [] -> as_posix (mkPath [] comps) = join_slash comps.
Proof. by destruct comps. Qed.

Lemma single_identifier_below root comps n :
  single_identifier (mkPath (anchor root) (parts root ++ comps ++ [n])) root
  = u "# " ++ join_slash (comps ++ [n]).
Proof.
  unfold single_identifier, relative_or_absolute.
  rewrite relative_to_below, as_posix_relative; [done|].
  by destruct comps.
Qed.

Lemma combine_identifier_below root comps n :
  let relative_dir := as_posix (mkPath [] comps) in
  combine_identifier (mkPath (anchor root) (parts root ++ comps ++ [n])) root
  = if bool_decide (relative_dir ∈ [[]; u "."; u "(top-level)"])
    then u "# " ++ n
    else u "# " ++ relative_dir ++ u "/" ++ n.
Proof.
  unfold combine_identifier, parent, name. simpl.
  rewrite app_assoc, removelast_last, last_snoc, relative_to_below. done.
Qed.

End identifier_facts.

Section tab_facts.

Implicit Types (s : State) (E : gset str) (rows : list (bool * Path)).

Lemma tab_loop_outcome rows s E (added : list Path) (any : bool) :
  E = list_to_set (name <$> file_paths s) ->
  exists s1 E1 added',
    foldl tab_step (s, E, added, any) rows
      = (s1, E1, added ++ added', any || existsb fst rows)
    /\ file_paths s1 = file_paths s ++ added'
    /\ checked_file_paths s1 = list_to_set added' ∪ checked_file_paths s
    /\ shown s1 = shown s
    /\ tab_file_checkboxes s1 = tab_file_checkboxes s
    /\ (forall q, q ∈ added' -> (true, q) ∈ rows)
    /\ (forall q, (true, q) ∈ rows -> name q ∈ name <$> file_paths s1).
Proof.
  revert s E added any.
  induction rows as [|[b fp] rows IH]; intros s E added any HE.
  { exists s, E, []. rewrite !app_nil_r, orb_false_r. simpl.
    rewrite (left_id_L ∅ (∪)). repeat split; try done.
    - by intros q ?%elem_of_nil.
    - by intros q ?%elem_of_nil. }
  change (foldl ?f ?a ((b, fp) :: rows)) with (foldl f (f a (b, fp)) rows).
  unfold tab_step at 2. destruct b.
  - destruct (decide (name fp ∈ E)) as [Hin|Hnew].
    + destruct (IH s E added true HE)
        as (s1 & E1 & a' & Hfold & Hf & Hc & Hsh & Ht & Ha & Hk).
      exists s1, E1, a'. rewrite Hfold. simpl. rewrite orb_true_r.
      repeat split; try done.
      * intros q Hq. right. by apply Ha.
      * intros q [[= ->]|Hq]%elem_of_cons; [|by apply Hk].
        rewrite Hf, fmap_app, elem_of_app. left.
        subst E. by apply elem_of_list_to_set in Hin.
    + destruct (IH (check_file (with_file_paths s (file_paths s ++ [fp])) fp)
                  ({[name fp]} ∪ E) (added ++ [fp]) true)
        as (s1 & E1 & a' & Hfold & Hf & Hc & Hsh & Ht & Ha & Hk).
      { subst E. simpl. rewrite fmap_app, list_to_set_app_L. simpl.
        rewrite (right_id_L ∅ (∪)). apply (comm_L (∪)). }
      exists s1, E1, (fp :: a'). rewrite Hfold. simpl. rewrite orb_true_r.
      split; [by rewrite <- app_assoc|]. simpl in Hf, Hc, Hsh, Ht.
      repeat split; try done.
      * by rewrite Hf, <- app_assoc.
      * rewrite Hc. apply set_eq. intros q. simpl.
        rewrite !elem_of_union, elem_of_singleton. tauto.
      * intros q [->|Hq]%elem_of_cons; [by left|right; by apply Ha].
      * intros q [[= ->]|Hq]%elem_of_cons; [|by apply Hk].
        rewrite Hf, fmap_app, elem_of_app. left.
        rewrite fmap_app, elem_of_app. right. by left.
  - destruct (IH s E added any HE)
      as (s1 & E1 & a' & Hfold & Hf & Hc & Hsh & Ht & Ha & Hk).
    exists s1, E1, a'. rewrite Hfold. simpl.
    repeat split; try done.
    + intros q Hq. right. by apply Ha.
    + intros q [[=]|Hq]%elem_of_cons. by apply Hk.
Qed.

Lemma existsb_checked rows :
  existsb fst rows = false <-> forall q, (true, q) ∉ rows.
Proof.
  induction rows as [|[b fp] rows IH]; simpl.
  { split; [|done]. intros _ q. apply not_elem_of_nil. }
  rewrite orb_false_iff, IH. split.
  - intros [-> Hrows] q [[=]|Hq]%elem_of_cons. by apply (Hrows q).
  - intros Hno. split.
    + destruct b; [|done]. destruct (Hno fp). by left.
    + intros q Hq. apply (Hno q). by right.
Qed.

Lemma selected_checked s :
  tidy s -> forall q, q ∈ selected_files s <-> q ∈ checked_file_paths s.
Proof.
  intros ([_ Hcb] & _ & _ & Hk) q. unfold selected_files.
  rewrite Hcb, checked_rows, list_elem_of_filter. split; [tauto|].
  intros Hq. split; [done|]. by apply Hk.
Qed.

End tab_facts.

(** X17: for a file below the root the identifier of [copy_file_code]
    and [paste_file_code] is "# " and the components below the root
    joined by "/"; the identifier of [combine_code] is the same text for
    a file directly in the root and for a file whose directory below the
    root is written otherwise than "", "." and "(top-level)", and is "# "
    and the bare file name for a file in a directory written like
    that. *)
Theorem identifiers_below_root (root : Path) (comps : list str) (n : str) :
  let fp := mkPath (anchor root) (parts root ++ comps ++ [n]) in
  single_identifier fp root = u "# " ++ join_slash (comps ++ [n])
  /\ (comps = [] \/ join_slash comps ∉ [[]; u "."; u "(top-level)"] ->
      combine_identifier fp root = single_identifier fp root)
  /\ (comps ≠ [] -> join_slash comps ∈ [[]; u "."; u "(top-level)"] ->
      combine_identifier fp root = u "# " ++ n
      /\ single_identifier fp root
         = u "# " ++ join_slash comps ++ u "/" ++ n).
Proof.
  cbn zeta. rewrite single_identifier_below, combine_identifier_below.
  split; [done|]. cbn zeta. split.
  - intros [->|Hdir]; [done|].
    assert (comps ≠ []) as Hne.
    { intros ->. apply Hdir. by left. }
    rewrite as_posix_relative, bool_decide_eq_false_2 by done.
    by rewrite join_slash_snoc.
  - intros Hne Hdir.
    rewrite as_posix_relative, bool_decide_eq_true_2 by done.
    by rewrite join_slash_snoc.
Qed.

Lemma identifiers_below_root_witness :
  combine_identifier ex_bar ex_root = single_identifier ex_bar ex_root.
Proof.
  apply (proj1 (proj2 (identifiers_below_root ex_root [u "sub"]
                         (u "bar.py")))).
  right. apply (bool_decide_unpack _). vm_compute. exact I.
Defined.

(** X18: [add_selected_files_from_tab] for a label without a tab changes
    nothing; for a tab it appends some of the tab's checked files to the
    list and checks them, after which every checked file of the tab has
    its name in the list; the tabs stay as they are, and the one message
    shown tells whether no row was checked, nothing was new, or how many
    files were added. *)
Theorem add_from_tab_outcome (s : State) (dir_key : str) :
  (tab_file_checkboxes s !! dir_key = None ->
     add_selected_files_from_tab s dir_key = s)
  /\ (forall rows,
        tab_file_checkboxes s !! dir_key = Some rows ->
        let s' := add_selected_files_from_tab s dir_key in
        exists added,
          file_paths s' = file_paths s ++ added
          /\ checked_file_paths s'
             = list_to_set added ∪ checked_file_paths s
          /\ tab_file_checkboxes s' = tab_file_checkboxes s
          /\ (forall q, q ∈ added -> (true, q) ∈ rows)
          /\ (forall q, (true, q) ∈ rows -> name q ∈ name <$> file_paths s')
          /\ ((forall q, (true, q) ∉ rows) ->
              shown s' = shown s
                ++ [StatusBar (NoFilesSelectedFromTab dir_key)])
          /\ (forall q, (true, q) ∈ rows ->
              shown s' = shown s
                ++ [StatusBar match added with
                              | [] => AllAlreadyInList dir_key
                              | _ => AddedFromTab (length added) dir_key
                              end])).
Proof.
  split.
  { intros Hk. unfold add_selected_files_from_tab. by rewrite Hk. }
  intros rows Hk. cbn zeta. unfold add_selected_files_from_tab. rewrite Hk.
  destruct (tab_loop_outcome rows s (list_to_set (name <$> file_paths s))
              [] false eq_refl)
    as (s1 & E1 & added & Hfold & Hf & Hc & Hsh & Ht & Ha & Hn).
  rewrite Hfold. simpl app. rewrite orb_false_l. exists added.
  destruct (existsb fst rows) eqn:Hany; cbn [negb].
  - assert (~ (forall q : Path, (true, q) ∉ rows)) as Hsome.
    { intros Hno. apply existsb_checked in Hno. congruence. }
    destruct added as [|a added];
      (split; [exact Hf|]); (split; [exact Hc|]); (split; [exact Ht|]);
      (split; [exact Ha|]); (split; [exact Hn|]);
      (split; [intros Hno; by destruct (Hsome Hno)|]);
      intros q _; simpl; by rewrite Hsh.
  - pose proof (proj1 (existsb_checked rows) Hany) as Hno.
    split; [exact Hf|]. split; [exact Hc|]. split; [exact Ht|].
    split; [exact Ha|]. split; [exact Hn|]. split.
    + intros _. simpl. by rewrite Hsh.
    + intros q Hq. by destruct (Hno q).
Qed.

(** X19: in a session a click on the checkbox of a row changes the
    selection at the path of that row and nowhere else: the path is
    selected afterwards exactly when the box was set, every other path is
    selected exactly when it was before; list, tabs, histories, clipboard,
    disk and messages stay.  A click outside the rows changes nothing. *)
Theorem checkbox_click_effect (s : State) (i : nat) (state : bool) :
  reachable s ->
  let s' := checkbox_state_changed s i state in
  (checkboxes s !! i = None -> s' = s)
  /\ (forall b fp,
        checkboxes s !! i = Some (b, fp) ->
        file_paths s' = file_paths s
        /\ checkboxes s' !! i = Some (state, fp)
        /\ (fp ∈ selected_files s' <-> state = true)
        /\ (forall q, q ≠ fp ->
                      (q ∈ selected_files s' <-> q ∈ selected_files s))
        /\ tab_file_checkboxes s' = tab_file_checkboxes s
        /\ previous_versions s' = previous_versions s
        /\ clipboard s' = clipboard s /\ fs s' = fs s
        /\ shown s' = shown s).
Proof.
  intros Hs s'.
  pose proof (reachable_tidy s Hs) as Htidy.
  pose proof (reachable_tidy s' (reachable_step s (CheckboxClicked i state) Hs))
    as Htidy'.
  pose proof (selected_checked s Htidy) as Hsel.
  pose proof (selected_checked s' Htidy') as Hsel'.
  destruct Htidy as ([_ Hcb] & _ & _ & _).
  subst s'. unfold checkbox_state_changed in *. split.
  { by intros ->. }
  intros b fp Hi. rewrite Hi in *.
  assert (i < length (checkboxes s))%nat as Hlt by (by eapply lookup_lt_Some).
  destruct state; simpl in *.
  - split; [done|]. split; [by apply list_lookup_insert_eq|].
    split; [|split; [|done]].
    + rewrite Hsel', elem_of_union, elem_of_singleton. tauto.
    + intros q Hq. rewrite Hsel', Hsel, elem_of_union, elem_of_singleton.
      tauto.
  - split; [done|]. split; [by apply list_lookup_insert_eq|].
    split; [|split; [|done]].
    + rewrite Hsel', elem_of_difference, elem_of_singleton.
      split; [tauto|done].
    + intros q Hq. rewrite Hsel', Hsel, elem_of_difference, elem_of_singleton.
      tauto.
Qed.

Lemma checkbox_click_effect_witness :
  ex_bar ∈ selected_files (checkbox_state_changed ex_session 0 false)
  <-> ex_bar ∈ selected_files ex_session.
Proof.
  refine (proj1 (proj2 (proj2 (proj2 (proj2
            (checkbox_click_effect ex_session 0 false ex_session_reachable)
            true ex_foo _)))) ex_bar _).
  - vm_compute. reflexivity.
  - by intros [=].
Defined.

(** ** The tab of a file *)

Section label_facts.

Implicit Types (root : Path) (comps : list str) (n : str).

Lemma parent_below root comps n :
  parent (mkPath (anchor root) (parts root ++ comps ++ [n]))
  = mkPath (anchor root) (parts root ++ comps).
Proof. unfold parent. simpl. by rewrite app_assoc, removelast_last. Qed.

Lemma dir_label_below root comps n :
  dir_label (mkPath (anchor root) (parts root ++ comps ++ [n])) root
  = if decide (comps = [] \/ join_slash comps = u ".")
    then u "(top-level)" else join_slash comps.
Proof.
  unfold dir_label. rewrite parent_below, relative_to_below.
  destruct comps as [|c comps]; [done|].
  rewrite as_posix_relative by done.
  destruct (decide (join_slash (c :: comps) = u ".")) as [Heq|Hne].
  - by rewrite decide_True by (by right).
  - rewrite decide_False; [done|]. by intros [?|?].
Qed.

Lemma pruned_below root comps n :
  pruned (mkPath (anchor root) (parts root ++ comps ++ [n])) root
  = bool_decide (Exists (fun d => d ∈ excluded_dirs) comps).
Proof. unfold pruned. by rewrite parent_below, relative_to_below. Qed.

End label_facts.

(** X20: a walked file below the root that passes the path filter is
    shown by the scan, unchecked, in the tab labelled with its directory
    below the root written with "/" ("(top-level)" for the root itself),
    when none of the directories on the way is an excluded one; when one
    of them is excluded, no tab shows the file. *)
Theorem scan_tab_of_file (s : State) (walked : list Path)
  (comps : list str) (n : str) :
  let root := selected_directory s in
  let fp := mkPath (anchor root) (parts root ++ comps ++ [n]) in
  let s' := scan_and_display_directory_files s walked in
  let label := if decide (comps = [] \/ join_slash comps = u ".")
               then u "(top-level)" else join_slash comps in
  fp ∈ walked -> is_candidate fp ->
  (Forall (fun d => d ∉ excluded_dirs) comps ->
     exists rows, tab_file_checkboxes s' !! label = Some rows
                  /\ (false, fp) ∈ rows)
  /\ (Exists (fun d => d ∈ excluded_dirs) comps ->
      forall k rows b, tab_file_checkboxes s' !! k = Some rows ->
                       (b, fp) ∉ rows).
Proof.
  intros root fp s' label Hin Hcand. subst s'.
  unfold scan_and_display_directory_files. cbn [tab_file_checkboxes with_tabs].
  fold root. split.
  - intros Hok. destruct (group_loop root walked label) as [H1 _].
    assert ((false, fp) ∈ default [] (foldl (group_step root) ∅ walked !! label))
      as Hrow.
    { rewrite H1. apply list_elem_of_fmap. exists fp. split; [done|].
      apply list_elem_of_filter. split; [|done]. split.
      - unfold fp. rewrite pruned_below, bool_decide_eq_false_2; [done|].
        by apply Forall_Exists_neg.
      - apply dir_label_below. }
    destruct (foldl _ ∅ walked !! label) as [rows|]; [by exists rows|].
    by apply elem_of_nil in Hrow.
  - intros Hex k rows b Hk Hrow.
    destruct (group_loop root walked k) as [H1 _].
    change (foldl (group_step root) ∅ walked !! k = Some rows) in Hk.
    rewrite Hk in H1. simpl in H1. rewrite H1 in Hrow.
    apply list_elem_of_fmap in Hrow as (q & [= _ <-] & Hq).
    apply list_elem_of_filter in Hq as [[Hq _] _].
    unfold fp in Hq. by rewrite pruned_below, bool_decide_eq_true_2 in Hq.
Qed.

Lemma scan_tab_of_file_witness :
  exists rows,
    tab_file_checkboxes
      (scan_and_display_directory_files ex_session [ex_foo; ex_bar])
      !! u "sub" = Some rows
    /\ (false, ex_bar) ∈ rows.
Proof.
  apply (proj1 (scan_tab_of_file ex_session [ex_foo; ex_bar] [u "sub"]
                  (u "bar.py") ltac:(right; left) ltac:(vm_compute; exact I))).
  repeat constructor. apply (bool_decide_unpack _). vm_compute. exact I.
Defined.

(** X21: once [select_all_in_tab] has set the boxes of a tab,
    [add_selected_files_from_tab] leaves the name of every file of the
    tab in the list; once [deselect_all_in_tab] has cleared them, it adds
    nothing, checks nothing and only reports that no file of the tab is
    selected. *)
Theorem tab_buttons_then_add (s : State) (dir_key : str)
  (rows : list (bool * Path)) :
  tab_file_checkboxes s !! dir_key = Some rows ->
  (forall b q, (b, q) ∈ rows ->
     name q ∈ name <$> file_paths (add_selected_files_from_tab
                                     (select_all_in_tab s dir_key) dir_key))
  /\ (let s' := add_selected_files_from_tab
                  (deselect_all_in_tab s dir_key) dir_key in
      file_paths s' = file_paths s
      /\ checked_file_paths s' = checked_file_paths s
      /\ shown s' = shown s ++ [StatusBar (NoFilesSelectedFromTab dir_key)]).
Proof.
  intros Hk. split.
  - intros b q Hq. unfold select_all_in_tab, set_all_in_tab. rewrite Hk.
    unfold add_selected_files_from_tab. cbn [tab_file_checkboxes with_tabs].
    rewrite lookup_insert_eq.
    set (s0 := with_tabs s _).
    destruct (tab_loop_outcome ((fun row => (true, row.2)) <$> rows) s0
                (list_to_set (name <$> file_paths s0)) [] false eq_refl)
      as (s1 & E1 & added & Hfold & Hf & _ & _ & _ & _ & Hn).
    rewrite Hfold.
    assert (name q ∈ name <$> file_paths s1) as Hin.
    { apply Hn. apply list_elem_of_fmap. by exists (b, q). }
    destruct (negb _); [done|]. by destruct ([] ++ added).
  - cbn zeta. unfold deselect_all_in_tab, set_all_in_tab. rewrite Hk.
    unfold add_selected_files_from_tab. cbn [tab_file_checkboxes with_tabs].
    rewrite lookup_insert_eq.
    set (s0 := with_tabs s _).
    destruct (tab_loop_outcome ((fun row => (false, row.2)) <$> rows) s0
                (list_to_set (name <$> file_paths s0)) [] false eq_refl)
      as (s1 & E1 & added & Hfold & Hf & Hc & Hsh & _ & Ha & _).
    rewrite Hfold.
    assert (existsb fst ((fun row : bool * Path => (false, row.2)) <$> rows)
            = false) as ->.
    { apply existsb_checked. intros q Hq.
      by apply list_elem_of_fmap in Hq as ([b' q'] & [=] & _). }
    assert (added = []) as ->.
    { destruct added as [|a added]; [done|].
      assert ((true, a) ∈ (fun row : bool * Path => (false, row.2)) <$> rows)
        as Hin by (apply Ha; by left).
      by apply list_elem_of_fmap in Hin as ([b' q'] & [=] & _). }
    simpl. rewrite Hf, Hc, Hsh, app_nil_r. simpl.
    by rewrite (left_id_L ∅ (∪)).
Qed.

Lemma tab_buttons_then_add_witness :
  name ex_bar
  ∈ name <$> file_paths
      (add_selected_files_from_tab
         (select_all_in_tab
            (scan_and_display_directory_files ex_unchecked [ex_foo; ex_bar])
            (u "sub"))
         (u "sub")).
Proof.
  apply (proj1 (tab_buttons_then_add
                  (scan_and_display_directory_files ex_unchecked
                     [ex_foo; ex_bar])
                  (u "sub") [(false, ex_bar)] ltac:(vm_compute; reflexivity))
           false ex_bar).
  by left.
Defined.
